(** * Sliding-window dataset of build-a-llm/dataset_v1.py

    A shallow embedding of [GPTDatasetV1] (its constructor, [__len__] and
    [__getitem__]) together with the Python built-ins the constructor relies
    on: [range] with an arbitrary integer step, list slicing with clamped
    bounds, and list indexing.  Python integers are unbounded, so they are
    modelled by [Z]; list positions are [nat] once they have been adjusted.

    The file also covers [create_dataloader_v1] with the batches its loader
    returns, and the first loop of build-a-llm/intro.py. *)

From Stdlib Require Import ZArith Lia String.
From stdpp Require Import base list.

Local Open Scope Z_scope.

(** ** Python built-ins used by the constructor *)

Inductive exception : Type :=
  | ValueError    (* range() arg 3 must not be zero *)
  | IndexError    (* list index out of range *)
  | RuntimeError. (* torch: overflow when unpacking an integer; stack of
                     tensors of unequal size *)

Inductive result (A : Type) : Type :=
  | Ok (a : A)
  | Raise (e : exception).
Arguments Ok {A} a.
Arguments Raise {A} e.

Definition is_raise {A} (r : result A) : bool :=
  match r with Ok _ => false | Raise _ => true end.

Definition result_map {A B} (f : A -> B) (r : result A) : result B :=
  match r with Ok a => Ok (f a) | Raise e => Raise e end.

(** [len(l)] as a Python integer. *)
Definition len {A} (l : list A) : Z := Z.of_nat (length l).

(** The loop test of a range iterator: for a positive step the iteration
    goes on while the index is below [stop], for a negative one while it is
    above. *)
Definition range_continues (i stop step : Z) : bool :=
  if 0 <? step then i <? stop else stop <? i.

(** The values a [for] loop over [range(i, stop, step)] visits, in the order
    it visits them.  [fuel] bounds the number of iterations. *)
Fixpoint range_iter (fuel : nat) (i stop step : Z) : list Z :=
  match fuel with
  | O => []
  | S fuel' =>
      if range_continues i stop step
      then i :: range_iter fuel' (i + step) stop step
      else []
  end.

(** [range(start, stop, step)]: a zero step raises [ValueError]; otherwise
    the distance between [start] and [stop] is enough fuel, since every
    iteration moves the index by at least one towards [stop]
    (see [range_exhausted]). *)
Definition range (start stop step : Z) : result (list Z) :=
  if step =? 0 then Raise ValueError
  else Ok (range_iter (Z.to_nat (Z.abs (stop - start))) start stop step).

(** Bound adjustment of a slice with the default step 1: a negative bound
    counts from the end, and every bound is clamped to [0 .. n]. *)
Definition adjust_index (n i : Z) : Z :=
  if i <? 0 then Z.max 0 (i + n) else Z.min i n.

(** [l[lo:hi]] *)
Definition slice {A} (l : list A) (lo hi : Z) : list A :=
  let n := len l in
  let lo' := adjust_index n lo in
  let hi' := adjust_index n hi in
  take (Z.to_nat (hi' - lo')) (drop (Z.to_nat lo') l).

(** [l[i]]: a negative index counts from the end; an index outside the list
    raises [IndexError]. *)
Definition index {A} (l : list A) (i : Z) : result A :=
  let i' := if i <? 0 then i + len l else i in
  if i' <? 0 then Raise IndexError
  else match l !! Z.to_nat i' with
       | Some x => Ok x
       | None => Raise IndexError
       end.

(** ** The external collaborators *)

(** A tokenizer is only known through [encode], which returns the token ids
    of a text or raises. *)
Record Tokenizer : Type := { encode : string -> result (list Z) }.

(** The elements of a tensor made from Python integers are signed 64-bit
    integers. *)
Definition fits_int64 (x : Z) : bool := (- 2 ^ 63 <=? x) && (x <? 2 ^ 63).

(** [torch.tensor(chunk)] keeps the integers of [chunk] in their order; an
    integer outside the 64-bit range makes it raise [RuntimeError]. *)
Definition tensor : Type := list Z.
Definition torch_tensor (chunk : list Z) : result tensor :=
  if forallb fits_int64 chunk then Ok chunk else Raise RuntimeError.

(** ** class GPTDatasetV1 *)

Record GPTDatasetV1 : Type := {
  input_ids : list tensor;
  target_ids : list tensor
}.

(** The body of the [for] loop (lines 20-23) for one value of [i]: each of
    the two conversions can raise, the one of the input chunk first. *)
Definition loop_body (token_ids : list Z) (max_length : Z)
    (self : GPTDatasetV1) (i : Z) : result GPTDatasetV1 :=
  let input_chunk := slice token_ids i (i + max_length) in
  let target_chunk := slice token_ids (i + 1) (i + max_length + 1) in
  match torch_tensor input_chunk with
  | Raise e => Raise e
  | Ok input =>
      match torch_tensor target_chunk with
      | Raise e => Raise e
      | Ok target =>
          Ok {| input_ids := input_ids self ++ [input];
                target_ids := target_ids self ++ [target] |}
      end
  end.

(** A [for] loop over the values [r] whose body updates [self] or raises;
    an exception ends the loop. *)
Fixpoint for_each (body : GPTDatasetV1 -> Z -> result GPTDatasetV1)
    (self : GPTDatasetV1) (r : list Z) : result GPTDatasetV1 :=
  match r with
  | [] => Ok self
  | i :: r' =>
      match body self i with
      | Raise e => Raise e
      | Ok self' => for_each body self' r'
      end
  end.

(** The start offsets the loop of line 19 iterates over. *)
Definition starts (token_ids : list Z) (max_length stride : Z) : result (list Z) :=
  range 0 (len token_ids - max_length) stride.

(** The constructor after tokenization (lines 12-13 and 19-23). *)
Definition windows (token_ids : list Z) (max_length stride : Z) : result GPTDatasetV1 :=
  match starts token_ids max_length stride with
  | Raise e => Raise e
  | Ok r =>
      for_each (loop_body token_ids max_length)
               {| input_ids := []; target_ids := [] |} r
  end.

Definition __init__ (txt : string) (tokenizer : Tokenizer)
    (max_length stride : Z) : result GPTDatasetV1 :=
  match encode tokenizer txt with
  | Raise e => Raise e
  | Ok token_ids => windows token_ids max_length stride
  end.

Definition __len__ (self : GPTDatasetV1) : Z := len (input_ids self).

Definition __getitem__ (self : GPTDatasetV1) (idx : Z) : result (tensor * tensor) :=
  match index (input_ids self) idx with
  | Raise e => Raise e
  | Ok x =>
      match index (target_ids self) idx with
      | Raise e => Raise e
      | Ok y => Ok (x, y)
      end
  end.

(** ** The sampler seen from outside *)

(** A sample is an (input window, target window) pair. *)
Definition Sample : Type := (tensor * tensor)%type.

(** The samples of a dataset in index order, as a loader without shuffling
    reads them: [dataset[0], dataset[1], ...]
    (see [dataset_len_getitem] for the agreement with [__getitem__]). *)
Definition samples (self : GPTDatasetV1) : list Sample :=
  zip (input_ids self) (target_ids self).

(** [build(token_sequence, max_length, stride)]: the ordered samples of the
    dataset constructed from an already tokenized text. *)
Definition build (token_sequence : list Z) (max_length stride : Z) : result (list Sample) :=
  result_map samples (windows token_sequence max_length stride).

(** The contents of the two tensors the loop body appends for the offset
    [i], when both conversions succeed. *)
Definition input_window (token_ids : list Z) (max_length i : Z) : tensor :=
  slice token_ids i (i + max_length).

Definition target_window (token_ids : list Z) (max_length i : Z) : tensor :=
  slice token_ids (i + 1) (i + max_length + 1).

(** Both conversions of the loop body succeed for the offset [i]. *)
Definition window_fits (token_ids : list Z) (max_length i : Z) : bool :=
  forallb fits_int64 (input_window token_ids max_length i)
  && forallb fits_int64 (target_window token_ids max_length i).

Definition sample_at (token_ids : list Z) (max_length i : Z) : Sample :=
  (input_window token_ids max_length i, target_window token_ids max_length i).

(** ** Inputs of the worked examples *)

(** The first twelve token ids of the text the script reads, as the comments
    of lines 102-104 print them. *)
Definition verdict_tokens : list Z :=
  [40; 367; 2885; 1464; 1807; 3619; 402; 271; 10899; 2138; 257; 7026].

(** A tokenizer that encodes every text as [token_ids]. *)
Definition constant_tokenizer (token_ids : list Z) : Tokenizer :=
  {| encode := fun _ => Ok token_ids |}.

(** ** create_dataloader_v1 and the loader it returns *)

(** What iterating a loader can raise: one of the exceptions above, or
    [StopIteration] when [next] is called on an exhausted iterator. *)
Inductive torch_error : Type :=
  | Python (e : exception)
  | StopIteration.

Inductive outcome (A : Type) : Type :=
  | Returns (a : A)
  | Throws (e : torch_error).
Arguments Returns {A} a.
Arguments Throws {A} e.

(** The attributes of [torch.utils.data.DataLoader] the function sets. *)
Record DataLoader : Type := {
  dataset : GPTDatasetV1;
  batch_size : Z;
  shuffle : bool;
  drop_last : bool;
  num_workers : Z
}.

(** [DataLoader(dataset, batch_size=, shuffle=, drop_last=, num_workers=)]:
    a negative [num_workers] is refused; with [shuffle] the loader builds a
    [RandomSampler], which refuses a dataset without samples; the
    [BatchSampler] refuses a [batch_size] that is not positive.  All three
    raise [ValueError]. *)
Definition DataLoader_init (dataset : GPTDatasetV1) (batch_size : Z)
    (shuffle drop_last : bool) (num_workers : Z) : result DataLoader :=
  if num_workers <? 0 then Raise ValueError
  else if shuffle && (__len__ dataset <=? 0) then Raise ValueError
  else if batch_size <=? 0 then Raise ValueError
  else Ok {| dataset := dataset; batch_size := batch_size; shuffle := shuffle;
             drop_last := drop_last; num_workers := num_workers |}.

(** Lines 32-50.  The module-level [tokenizer] of line 7 is the first
    argument. *)
Definition create_dataloader_v1 (tokenizer : Tokenizer) (txt : string)
    (batch_size max_length stride : Z) (shuffle drop_last : bool)
    (num_workers : Z) : result DataLoader :=
  match __init__ txt tokenizer max_length stride with
  | Raise e => Raise e
  | Ok dataset => DataLoader_init dataset batch_size shuffle drop_last num_workers
  end.

(** The call with every keyword left at its default (lines 34-39). *)
Definition create_dataloader_v1_defaults (tokenizer : Tokenizer) (txt : string) :
    result DataLoader :=
  create_dataloader_v1 tokenizer txt 4 256 128 true true 0.

(** The order in which the sampler presents the indices: [range(len(dataset))]
    without shuffling, and with shuffling the permutation [randperm] drawn
    by the random generator for this pass. *)
Definition sampler (dl : DataLoader) (randperm : list Z) : result (list Z) :=
  if shuffle dl then Ok randperm else range 0 (__len__ (dataset dl)) 1.

(** The loop of the batch sampler: indices are appended to [batch]; a batch
    that has reached [batch_size] is yielded and a new one started.  Returns
    the batches yielded and the batch left unfinished. *)
Fixpoint batch_sampler_loop (batch_size : Z) (indices : list Z) (batch : list Z) :
    list (list Z) * list Z :=
  match indices with
  | [] => ([], batch)
  | idx :: rest =>
      let batch' := batch ++ [idx] in
      if len batch' =? batch_size
      then let '(yielded, last) := batch_sampler_loop batch_size rest [] in
           (batch' :: yielded, last)
      else batch_sampler_loop batch_size rest batch'
  end.

(** The unfinished batch is yielded too unless [drop_last] is set. *)
Definition batch_sampler (batch_size : Z) (drop_last : bool) (indices : list Z) :
    list (list Z) :=
  let '(yielded, last) := batch_sampler_loop batch_size indices [] in
  if (0 <? len last) && negb drop_last then yielded ++ [last] else yielded.

(** [[dataset[idx] for idx in batch]] *)
Fixpoint fetch (self : GPTDatasetV1) (batch : list Z) : result (list (tensor * tensor)) :=
  match batch with
  | [] => Ok []
  | idx :: rest =>
      match __getitem__ self idx with
      | Raise e => Raise e
      | Ok s =>
          match fetch self rest with
          | Raise e => Raise e
          | Ok ss => Ok (s :: ss)
          end
      end
  end.

(** [torch.stack(rows)]: the rows of the new tensor in their order; an empty
    list of rows or rows of different sizes raise [RuntimeError]. *)
Definition stack (rows : list tensor) : outcome (list tensor) :=
  match rows with
  | [] => Throws (Python RuntimeError)
  | row :: rest =>
      if forallb (fun row' => len row' =? len row) rest
      then Returns rows
      else Throws (Python RuntimeError)
  end.

(** The default collation of a list of (input, target) pairs: the inputs
    stacked and the targets stacked. *)
Definition collate (data : list (tensor * tensor)) : outcome (list tensor * list tensor) :=
  match stack (fst <$> data) with
  | Throws e => Throws e
  | Returns xs =>
      match stack (snd <$> data) with
      | Throws e => Throws e
      | Returns ys => Returns (xs, ys)
      end
  end.

(** The result of the [k]-th call (from 0) of [next] on [iter(dl)]. *)
Definition next_batch (dl : DataLoader) (randperm : list Z) (k : nat) :
    outcome (list tensor * list tensor) :=
  match sampler dl randperm with
  | Raise e => Throws (Python e)
  | Ok indices =>
      match batch_sampler (batch_size dl) (drop_last dl) indices !! k with
      | None => Throws StopIteration
      | Some batch =>
          match fetch (dataset dl) batch with
          | Raise e => Throws (Python e)
          | Ok data => collate data
          end
      end
  end.

(** The sample at position [idx] of a dataset that has one there (the
    pair of empty windows stands for none). *)
Definition pick (self : GPTDatasetV1) (idx : Z) : Sample :=
  match samples self !! Z.to_nat idx with
  | Some s => s
  | None => ([], [])
  end.

(** ** intro.py: the next-token tasks *)

(** [l[lo:]] and [l[:hi]]: an omitted bound is the end of the list it is
    nearest to. *)
Definition slice_from {A} (l : list A) (lo : Z) : list A := slice l lo (len l).
Definition slice_to {A} (l : list A) (hi : Z) : list A := slice l 0 hi.

(** Line 26. *)
Definition context_size : Z := 4.

(** What a loop that prints one line per iteration leaves behind: the lines
    printed, and the exception that ended the loop, if one did. *)
Definition transcript (A : Type) : Type := (list A * option exception)%type.

Fixpoint print_each {A} (body : Z -> result A) (r : list Z) : transcript A :=
  match r with
  | [] => ([], None)
  | i :: r' =>
      match body i with
      | Raise e => ([], Some e)
      | Ok line =>
          let '(out, e) := print_each body r' in (line :: out, e)
      end
  end.

(** The body of the loop of lines 32-35: the line printed for [i]. *)
Definition context_line (enc_sample : list Z) (i : Z) : result (list Z * Z) :=
  let context := slice_to enc_sample i in
  match index enc_sample i with
  | Raise e => Raise e
  | Ok desired => Ok (context, desired)
  end.

(** Lines 32-35. *)
Definition print_contexts (enc_sample : list Z) (context_size : Z) :
    transcript (list Z * Z) :=
  match range 1 (context_size + 1) 1 with
  | Raise e => ([], Some e)
  | Ok r => print_each (context_line enc_sample) r
  end.

(** Lines 24-35 on the encoded text: the sample starts at token 50. *)
Definition intro_contexts (encoded_text : list Z) : transcript (list Z * Z) :=
  let enc_sample := slice_from encoded_text 50 in
  print_contexts enc_sample context_size.

(** The first tokens of the text in the order of the comments of lines
    102-119 (eight input rows and the last target). *)
Definition verdict_tokens_33 : list Z :=
  [40; 367; 2885; 1464; 1807; 3619; 402; 271; 10899; 2138; 257; 7026;
   15632; 438; 2016; 257; 922; 5891; 1576; 438; 568; 340; 373; 645;
   1049; 5975; 284; 502; 284; 3285; 326; 11; 287].

(** ** Worked examples *)

(** The batches printed in the comments of lines 75-77 and 87-91. *)
Example build_verdict_2_2 :
  result_map (take 2) (build verdict_tokens 2 2)
  = Ok [([40; 367], [367; 2885]); ([2885; 1464], [1464; 1807])].
Proof. reflexivity. Qed.

Example build_verdict_8_2 :
  result_map (take 2) (build verdict_tokens 8 2)
  = Ok [([40; 367; 2885; 1464; 1807; 3619; 402; 271],
         [367; 2885; 1464; 1807; 3619; 402; 271; 10899]);
        ([2885; 1464; 1807; 3619; 402; 271; 10899; 2138],
         [1464; 1807; 3619; 402; 271; 10899; 2138; 257])].
Proof. reflexivity. Qed.

(** A negative stride makes the range count downwards from 0 while it is
    above [len token_ids - max_length]; the slices then wrap and clamp. *)
Example build_neg_stride :
  build [1; 2] 4 (-1) = Ok [([1; 2], [2]); ([2], [1; 2])].
Proof. reflexivity. Qed.

(** A token id outside the 64-bit range makes the conversion of the first
    window that holds it raise, and with it the constructor; when no window
    is built the id is never converted. *)
Example build_overflow :
  build [2 ^ 63; 1; 2] 1 1 = Raise RuntimeError
  /\ build [1; 2; 2 ^ 63] 1 1 = Raise RuntimeError
  /\ build [2 ^ 63; 1; 2] 3 1 = Ok [].
Proof. repeat split; reflexivity. Qed.

Example build_verdict_4_1 :
  build verdict_tokens 4 1
  = Ok [([40; 367; 2885; 1464], [367; 2885; 1464; 1807]);
        ([367; 2885; 1464; 1807], [2885; 1464; 1807; 3619]);
        ([2885; 1464; 1807; 3619], [1464; 1807; 3619; 402]);
        ([1464; 1807; 3619; 402], [1807; 3619; 402; 271]);
        ([1807; 3619; 402; 271], [3619; 402; 271; 10899]);
        ([3619; 402; 271; 10899], [402; 271; 10899; 2138]);
        ([402; 271; 10899; 2138], [271; 10899; 2138; 257]);
        ([271; 10899; 2138; 257], [10899; 2138; 257; 7026])].
Proof. reflexivity. Qed.

(** ** The range iterator *)

Section RangeUp.
Variables stop step : Z.
Hypothesis step_pos : 0 < step.

Lemma range_continues_up i : range_continues i stop step = (i <? stop).
Proof. unfold range_continues. destruct (Z.ltb_spec 0 step); [done | lia]. Qed.

(** With enough fuel the iterator visits [i], [i + step], ... as long as
    the value stays below [stop], and nothing else. *)
Lemma range_iter_lookup fuel : forall i (k : nat),
  stop - i <= Z.of_nat fuel ->
  range_iter fuel i stop step !! k
  = if i + Z.of_nat k * step <? stop then Some (i + Z.of_nat k * step) else None.
Proof.
  induction fuel as [|fuel IH]; intros i k Hfuel; simpl.
  - destruct (Z.ltb_spec (i + Z.of_nat k * step) stop); [nia | done].
  - rewrite range_continues_up. destruct (Z.ltb_spec i stop) as [Hi|Hi].
    + destruct k as [|k].
      * replace (i + Z.of_nat 0 * step) with i by lia.
        destruct (Z.ltb_spec i stop); [done | lia].
      * change ((i :: range_iter fuel (i + step) stop step) !! S k)
          with (range_iter fuel (i + step) stop step !! k).
        rewrite IH by lia.
        replace (i + step + Z.of_nat k * step) with (i + Z.of_nat (S k) * step) by lia.
        done.
    + destruct (Z.ltb_spec (i + Z.of_nat k * step) stop); [nia | done].
Qed.

Lemma range_iter_length fuel : forall i,
  stop - i <= Z.of_nat fuel ->
  len (range_iter fuel i stop step)
  = if i <? stop then (stop - i - 1) / step + 1 else 0.
Proof.
  unfold len.
  induction fuel as [|fuel IH]; intros i Hfuel; simpl.
  - destruct (Z.ltb_spec i stop); [lia | done].
  - rewrite range_continues_up. destruct (Z.ltb_spec i stop) as [Hi|Hi]; [|done].
    simpl length. rewrite Nat2Z.inj_succ, IH by lia.
    destruct (Z.ltb_spec (i + step) stop) as [Hn|Hn].
    + replace (stop - i - 1) with (stop - (i + step) - 1 + 1 * step) by lia.
      rewrite Z.div_add by lia. lia.
    + rewrite Z.div_small by lia. lia.
Qed.
End RangeUp.

(** The fuel [range] passes is enough in both directions: after the last
    value the loop test fails, so the iterator stopped by itself. *)
Lemma range_iter_exhausted stop step fuel : forall i,
  step <> 0 ->
  (if 0 <? step then stop - i else i - stop) <= Z.of_nat fuel ->
  range_continues (i + len (range_iter fuel i stop step) * step) stop step = false.
Proof.
  unfold len.
  induction fuel as [|fuel IH]; intros i Hstep Hfuel; simpl range_iter.
  - replace (i + Z.of_nat (length (@nil Z)) * step) with i by (simpl; lia).
    unfold range_continues.
    destruct (Z.ltb_spec 0 step); apply Z.ltb_ge; lia.
  - destruct (range_continues i stop step) eqn:Hc.
    + simpl length. rewrite Nat2Z.inj_succ.
      replace (i + Z.succ (Z.of_nat (length (range_iter fuel (i + step) stop step))) * step)
        with (i + step + Z.of_nat (length (range_iter fuel (i + step) stop step)) * step)
        by lia.
      apply IH; [done|].
      unfold range_continues in Hc.
      destruct (Z.ltb_spec 0 step); apply Z.ltb_lt in Hc; lia.
    + replace (i + Z.of_nat (length (@nil Z)) * step) with i by (simpl; lia).
      done.
Qed.

Lemma range_exhausted start stop step r :
  range start stop step = Ok r ->
  range_continues (start + len r * step) stop step = false.
Proof.
  unfold range. destruct (Z.eqb_spec step 0) as [|Hstep]; [done|].
  intros [= <-]. apply range_iter_exhausted; [done|].
  destruct (Z.ltb_spec 0 step); lia.
Qed.


(** ** Slices that stay inside the list *)

Lemma adjust_index_inside n i : 0 <= i <= n -> adjust_index n i = i.
Proof.
  intros Hi. unfold adjust_index.
  destruct (Z.ltb_spec i 0); lia.
Qed.

Lemma slice_inside {A} (l : list A) lo m :
  0 <= lo -> 0 <= m -> lo + m <= len l ->
  slice l lo (lo + m) = take (Z.to_nat m) (drop (Z.to_nat lo) l).
Proof.
  intros Hlo Hm Hhi. unfold slice.
  rewrite !adjust_index_inside by lia.
  by replace (lo + m - lo) with m by lia.
Qed.

Lemma slice_between {A} (l : list A) lo hi :
  0 <= lo <= hi -> hi <= len l ->
  slice l lo hi = take (Z.to_nat (hi - lo)) (drop (Z.to_nat lo) l).
Proof.
  intros Hlo Hhi. replace hi with (lo + (hi - lo)) at 1 by lia.
  apply slice_inside; lia.
Qed.

Lemma slice_inside_length {A} (l : list A) lo m :
  0 <= lo -> 0 <= m -> lo + m <= len l ->
  len (slice l lo (lo + m)) = m.
Proof.
  intros Hlo Hm Hhi. rewrite slice_inside by done.
  unfold len in *. rewrite length_take, length_drop. lia.
Qed.

Lemma slice_inside_lookup {A} (l : list A) lo m (j : nat) :
  0 <= lo -> lo + m <= len l -> Z.of_nat j < m ->
  slice l lo (lo + m) !! j = l !! Z.to_nat (lo + Z.of_nat j).
Proof.
  intros Hlo Hhi Hj. rewrite slice_inside by lia.
  rewrite lookup_take_lt, lookup_drop by lia.
  f_equal. lia.
Qed.

Lemma lookup_inside {A} (l : list A) i :
  0 <= i < len l -> is_Some (l !! Z.to_nat i).
Proof. intros Hi. apply lookup_lt_is_Some. unfold len in Hi. lia. Qed.

(** ** The loop of the constructor *)

Lemma slice_segment {A} (l : list A) lo hi :
  exists before after : list A, l = before ++ slice l lo hi ++ after.
Proof.
  unfold slice.
  set (m := Z.to_nat (adjust_index (len l) lo)).
  set (n := Z.to_nat (adjust_index (len l) hi - adjust_index (len l) lo)).
  exists (take m l), (drop n (drop m l)).
  by rewrite (take_drop n (drop m l)), take_drop.
Qed.

(** A slice of 64-bit integers holds 64-bit integers. *)
Lemma forallb_slice (token_ids : list Z) lo hi :
  forallb fits_int64 token_ids = true ->
  forallb fits_int64 (slice token_ids lo hi) = true.
Proof.
  destruct (slice_segment token_ids lo hi) as (before & after & Heq).
  rewrite Heq at 1. rewrite !forallb_app, !andb_true_iff. tauto.
Qed.

Lemma window_fits_int64 token_ids max_length i :
  forallb fits_int64 token_ids = true -> window_fits token_ids max_length i = true.
Proof.
  intros Hfit. unfold window_fits, input_window, target_window.
  by rewrite !forallb_slice.
Qed.

Lemma loop_body_fits token_ids max_length self i :
  loop_body token_ids max_length self i
  = if window_fits token_ids max_length i
    then Ok {| input_ids := input_ids self ++ [input_window token_ids max_length i];
               target_ids := target_ids self ++ [target_window token_ids max_length i] |}
    else Raise RuntimeError.
Proof.
  unfold loop_body, torch_tensor, window_fits, input_window, target_window.
  cbv zeta.
  destruct (forallb fits_int64 (slice token_ids i (i + max_length))); [|done].
  by destruct (forallb fits_int64 (slice token_ids (i + 1) (i + max_length + 1))).
Qed.

(** Running the loop over the offsets [r] appends one input window and one
    target window per offset, in the order of [r], unless a window holds an
    integer that does not fit. *)
Lemma for_each_loop_body token_ids max_length r : forall self,
  for_each (loop_body token_ids max_length) self r
  = if forallb (window_fits token_ids max_length) r
    then Ok {| input_ids := input_ids self ++ (input_window token_ids max_length <$> r);
               target_ids := target_ids self ++ (target_window token_ids max_length <$> r) |}
    else Raise RuntimeError.
Proof.
  induction r as [|i r IH]; intros [ins tgs]; cbn [for_each forallb].
  - csimpl. by rewrite !app_nil_r.
  - rewrite loop_body_fits.
    destruct (window_fits token_ids max_length i); [|done].
    rewrite IH. cbn [andb input_ids target_ids].
    destruct (forallb (window_fits token_ids max_length) r); [|done].
    csimpl. by rewrite <- !app_assoc.
Qed.

Lemma windows_starts token_ids max_length stride r :
  starts token_ids max_length stride = Ok r ->
  windows token_ids max_length stride
  = if forallb (window_fits token_ids max_length) r
    then Ok {| input_ids := input_window token_ids max_length <$> r;
               target_ids := target_window token_ids max_length <$> r |}
    else Raise RuntimeError.
Proof. intros Hr. unfold windows. rewrite Hr, for_each_loop_body. done. Qed.

Lemma zip_windows token_ids max_length (r : list Z) :
  zip (input_window token_ids max_length <$> r)
      (target_window token_ids max_length <$> r)
  = sample_at token_ids max_length <$> r.
Proof. induction r as [|i r IH]; csimpl; [done | by f_equal]. Qed.

(** A dataset that was constructed holds the windows at the offsets of the
    range, and all of them fit. *)
Lemma windows_Ok_inv token_ids max_length stride self :
  windows token_ids max_length stride = Ok self ->
  exists r, starts token_ids max_length stride = Ok r
    /\ self = {| input_ids := input_window token_ids max_length <$> r;
                 target_ids := target_window token_ids max_length <$> r |}.
Proof.
  intros Hw.
  destruct (starts token_ids max_length stride) as [r|e] eqn:Hr.
  - exists r. split; [done|].
    rewrite (windows_starts _ _ _ r Hr) in Hw.
    destruct (forallb (window_fits token_ids max_length) r); [|done].
    by injection Hw as <-.
  - unfold windows in Hw. by rewrite Hr in Hw.
Qed.

Lemma windows_Ok_fits token_ids max_length stride self r :
  windows token_ids max_length stride = Ok self ->
  starts token_ids max_length stride = Ok r ->
  forallb (window_fits token_ids max_length) r = true.
Proof.
  intros Hw Hr. rewrite (windows_starts _ _ _ r Hr) in Hw.
  by destruct (forallb (window_fits token_ids max_length) r).
Qed.

Lemma build_Ok_inv token_ids max_length stride ss :
  build token_ids max_length stride = Ok ss ->
  exists r, starts token_ids max_length stride = Ok r
            /\ ss = sample_at token_ids max_length <$> r.
Proof.
  unfold build. intros Hb.
  destruct (windows token_ids max_length stride) as [self|e] eqn:Hw; [|done].
  destruct (windows_Ok_inv _ _ _ _ Hw) as (r & Hr & ->).
  exists r. split; [done|]. injection Hb as <-.
  unfold samples. cbn [input_ids target_ids]. by rewrite zip_windows.
Qed.

Lemma build_Ok_starts token_ids max_length stride ss r :
  build token_ids max_length stride = Ok ss ->
  starts token_ids max_length stride = Ok r ->
  ss = sample_at token_ids max_length <$> r.
Proof.
  intros Hb Hr. destruct (build_Ok_inv _ _ _ _ Hb) as (r' & Hr' & ->).
  rewrite Hr in Hr'. by injection Hr' as <-.
Qed.

(** When every token fits, the constructor fails only if [range] does. *)
Lemma windows_fit_starts token_ids max_length stride r :
  forallb fits_int64 token_ids = true ->
  starts token_ids max_length stride = Ok r ->
  windows token_ids max_length stride
  = Ok {| input_ids := input_window token_ids max_length <$> r;
          target_ids := target_window token_ids max_length <$> r |}.
Proof.
  intros Hfit Hr. rewrite (windows_starts _ _ _ r Hr).
  by rewrite (proj2 (forallb_forall _ r)) by (intros; by apply window_fits_int64).
Qed.

Lemma build_starts token_ids max_length stride r :
  forallb fits_int64 token_ids = true ->
  starts token_ids max_length stride = Ok r ->
  build token_ids max_length stride = Ok (sample_at token_ids max_length <$> r).
Proof.
  intros Hfit Hr. unfold build. rewrite (windows_fit_starts _ _ _ r Hfit Hr).
  unfold result_map, samples. cbn [input_ids target_ids].
  by rewrite zip_windows.
Qed.


(** For a positive stride the constructor's range is the list of multiples
    of the stride below [len token_ids - max_length]. *)
Lemma starts_pos token_ids max_length stride :
  1 <= stride ->
  exists r, starts token_ids max_length stride = Ok r
    /\ (forall k : nat,
          r !! k = if Z.of_nat k * stride <? len token_ids - max_length
                   then Some (Z.of_nat k * stride) else None)
    /\ len r = if 0 <? len token_ids - max_length
               then (len token_ids - max_length - 1) / stride + 1 else 0.
Proof.
  intros Hs. unfold starts, range.
  destruct (Z.eqb_spec stride 0); [lia|].
  eexists; split; [done|]. split.
  - intros k. rewrite range_iter_lookup by lia. done.
  - rewrite range_iter_length by lia.
    by replace (len token_ids - max_length - 0 - 1) with (len token_ids - max_length - 1) by lia.
Qed.

Lemma starts_pos_lookup token_ids max_length stride r (k : nat) start :
  1 <= stride ->
  starts token_ids max_length stride = Ok r ->
  r !! k = Some start ->
  start = Z.of_nat k * stride /\ 0 <= start < len token_ids - max_length.
Proof.
  intros Hs Hr Hk.
  destruct (starts_pos token_ids max_length stride Hs) as (r' & Hr' & Hlook & _).
  rewrite Hr in Hr'. injection Hr' as <-.
  rewrite Hlook in Hk.
  destruct (Z.ltb_spec (Z.of_nat k * stride) (len token_ids - max_length));
    [|done].
  injection Hk as <-. nia.
Qed.


(** ** List indexing inside the list *)

Lemma index_inside {A} (l : list A) (idx : Z) (x : A) :
  0 <= idx -> l !! Z.to_nat idx = Some x -> index l idx = Ok x.
Proof.
  intros Hidx Hx. unfold index.
  destruct (Z.ltb_spec idx 0); [lia|].
  destruct (Z.ltb_spec idx 0); [lia|].
  by rewrite Hx.
Qed.

(** ** The windowing contract *)

Lemma build_starts_nil token_ids max_length stride :
  starts token_ids max_length stride = Ok [] ->
  build token_ids max_length stride = Ok [].
Proof. intros Hr. unfold build. by rewrite (windows_starts _ _ _ [] Hr). Qed.

(** C1: for [max_length >= 1] and [stride >= 1], whenever the constructor
    returns, the sample emitted for the start offset [start] (the [k]-th
    value of the loop variable) has as input window
    [token_sequence[start : start + max_length]] and as target window
    [token_sequence[start + 1 : start + max_length + 1]]; both have exactly
    [max_length] elements, every element is read from inside the sequence
    ([input[j] = token_sequence[start + j]],
    [target[j] = token_sequence[start + j + 1]]), the target is the input
    shifted by one ([target[j] = input[j + 1]] for [j <= max_length - 2]) and
    its last element is [token_sequence[start + max_length]]. *)
Theorem build_windows_shifted (token_sequence : list Z) (max_length stride : Z)
    (ss : list Sample) :
  1 <= max_length -> 1 <= stride ->
  build token_sequence max_length stride = Ok ss ->
  exists r : list Z,
    starts token_sequence max_length stride = Ok r
    /\ length ss = length r
    /\ forall (k : nat) (start : Z), r !! k = Some start ->
       exists input target : tensor,
         ss !! k = Some (input, target)
         /\ input = slice token_sequence start (start + max_length)
         /\ target = slice token_sequence (start + 1) (start + max_length + 1)
         /\ len input = max_length
         /\ len target = max_length
         /\ (forall j : nat, Z.of_nat j < max_length ->
               exists x y : Z,
                 input !! j = Some x
                 /\ token_sequence !! Z.to_nat (start + Z.of_nat j) = Some x
                 /\ target !! j = Some y
                 /\ token_sequence !! Z.to_nat (start + Z.of_nat j + 1) = Some y)
         /\ (forall j : nat, Z.of_nat j <= max_length - 2 ->
               target !! j = input !! S j)
         /\ target !! Z.to_nat (max_length - 1)
            = token_sequence !! Z.to_nat (start + max_length).
Proof.
  intros Hm Hs Hb.
  destruct (build_Ok_inv _ _ _ _ Hb) as (r & Hr & ->).
  exists r. split; [done|].
  split; [by rewrite length_fmap|].
  intros k start Hk.
  destruct (starts_pos_lookup _ _ _ _ _ _ Hs Hr Hk) as [_ Hbnd].
  exists (input_window token_sequence max_length start),
         (target_window token_sequence max_length start).
  split; [by rewrite list_lookup_fmap, Hk|].
  unfold input_window, target_window, tensor.
  replace (start + max_length + 1) with (start + 1 + max_length) by lia.
  split; [done|]. split; [done|].
  split; [apply slice_inside_length; lia|].
  split; [apply slice_inside_length; lia|].
  split; [|split].
  - intros j Hj.
    destruct (lookup_inside token_sequence (start + Z.of_nat j)) as [x Hx]; [lia|].
    destruct (lookup_inside token_sequence (start + Z.of_nat j + 1)) as [y Hy]; [lia|].
    exists x, y. rewrite !slice_inside_lookup by lia.
    replace (start + 1 + Z.of_nat j) with (start + Z.of_nat j + 1) by lia.
    done.
  - intros j Hj. rewrite !slice_inside_lookup by lia. f_equal. lia.
  - rewrite slice_inside_lookup by lia. f_equal. lia.
Qed.

Lemma build_windows_shifted_witness :
  1 <= 4 /\ 1 <= 1
  /\ exists (ss : list Sample) (input target : tensor),
       build verdict_tokens 4 1 = Ok ss
       /\ ss !! 1%nat = Some (input, target)
       /\ input = slice verdict_tokens 1 (1 + 4)
       /\ target = slice verdict_tokens (1 + 1) (1 + 4 + 1)
       /\ len input = 4 /\ len target = 4
       /\ target !! Z.to_nat (4 - 1) = verdict_tokens !! Z.to_nat (1 + 4).
Proof.
  split; [lia|]. split; [lia|].
  destruct (build_windows_shifted verdict_tokens 4 1 _ ltac:(lia) ltac:(lia) eq_refl)
    as (r & Hr & _ & Hss).
  vm_compute in Hr. injection Hr as <-.
  destruct (Hss 1%nat 1 eq_refl)
    as (input & target & Hk & Hi & Ht & Hli & Hlt & _ & _ & Hlast).
  eexists _, input, target. split; [reflexivity|]. auto 10.
Defined.

(** C2: for [max_length >= 1] and [stride >= 1], on token ids that fit the
    tensors' 64-bit elements, the number of samples is
    [floor((N - max_length - 1) / stride) + 1] when [N > max_length], and
    [0] otherwise. *)
Theorem build_sample_count (token_sequence : list Z) (max_length stride : Z) :
  1 <= max_length -> 1 <= stride ->
  forallb fits_int64 token_sequence = true ->
  exists ss : list Sample,
    build token_sequence max_length stride = Ok ss
    /\ len ss = if len token_sequence >? max_length
                then (len token_sequence - max_length - 1) / stride + 1
                else 0.
Proof.
  intros Hm Hs Hfit.
  destruct (starts_pos token_sequence max_length stride Hs) as (r & Hr & _ & Hlen).
  exists (sample_at token_sequence max_length <$> r).
  split; [by apply build_starts|].
  unfold len at 1. rewrite length_fmap. fold (len r). rewrite Hlen.
  rewrite Z.gtb_ltb.
  destruct (Z.ltb_spec 0 (len token_sequence - max_length));
    destruct (Z.ltb_spec max_length (len token_sequence)); lia.
Qed.

Lemma build_sample_count_witness :
  1 <= 4 /\ 1 <= 3 /\ forallb fits_int64 verdict_tokens = true
  /\ exists ss : list Sample,
       build verdict_tokens 4 3 = Ok ss
       /\ len ss = if len verdict_tokens >? 4
                   then (len verdict_tokens - 4 - 1) / 3 + 1
                   else 0.
Proof.
  split; [lia|]. split; [lia|]. split; [reflexivity|].
  apply (build_sample_count verdict_tokens 4 3); [lia | lia | reflexivity].
Defined.



(** C4: for [max_length >= 1] and [stride >= 1], the samples of a
    constructed dataset are the windows at the start offsets the loop
    visits, and every such offset satisfies [0 <= start] and
    [start + max_length <= N - 1]; hence every index from [start] to
    [start + max_length] is a position of the token sequence, and neither
    bound of the two slices is clamped. *)
Theorem build_starts_in_bounds (token_sequence : list Z) (max_length stride : Z)
    (ss : list Sample) :
  1 <= max_length -> 1 <= stride ->
  build token_sequence max_length stride = Ok ss ->
  exists r : list Z,
    starts token_sequence max_length stride = Ok r
    /\ ss = sample_at token_sequence max_length <$> r
    /\ forall (k : nat) (start : Z), r !! k = Some start ->
         0 <= start
         /\ start + max_length <= len token_sequence - 1
         /\ (forall j : Z, start <= j <= start + max_length ->
               0 <= j <= len token_sequence - 1
               /\ is_Some (token_sequence !! Z.to_nat j))
         /\ adjust_index (len token_sequence) start = start
         /\ adjust_index (len token_sequence) (start + max_length) = start + max_length
         /\ adjust_index (len token_sequence) (start + 1) = start + 1
         /\ adjust_index (len token_sequence) (start + max_length + 1)
            = start + max_length + 1.
Proof.
  intros Hm Hs Hb.
  destruct (build_Ok_inv _ _ _ _ Hb) as (r & Hr & ->).
  exists r. split; [done|]. split; [done|].
  intros k start Hk.
  destruct (starts_pos_lookup _ _ _ _ _ _ Hs Hr Hk) as [_ Hbnd].
  split; [lia|]. split; [lia|]. split.
  - intros j Hj. split; [lia|]. apply lookup_inside. lia.
  - rewrite !adjust_index_inside by lia. done.
Qed.

Lemma build_starts_in_bounds_witness :
  1 <= 2 /\ 1 <= 2
  /\ build [5; 6; 7; 8; 9] 2 2 = Ok [([5; 6], [6; 7]); ([7; 8], [8; 9])]
  /\ exists r : list Z,
       starts [5; 6; 7; 8; 9] 2 2 = Ok r
       /\ [([5; 6], [6; 7]); ([7; 8], [8; 9])] = sample_at [5; 6; 7; 8; 9] 2 <$> r
       /\ forall (k : nat) (start : Z), r !! k = Some start ->
            0 <= start /\ start + 2 <= len [5; 6; 7; 8; 9] - 1.
Proof.
  split; [lia|]. split; [lia|]. split; [reflexivity|].
  destruct (build_starts_in_bounds [5; 6; 7; 8; 9] 2 2 _ ltac:(lia) ltac:(lia) eq_refl)
    as (r & Hr & Hss & Hbnd).
  exists r. split; [done|]. split; [done|].
  intros k start Hk. destruct (Hbnd k start Hk) as (H0 & H1 & _). auto.
Defined.

(** C5: for a sequence of length [N >= 1] and [stride >= 1], the window
    length [max_length = N - 1] gives exactly one sample (on token ids that
    fit the tensors' 64-bit elements), and every [max_length >= N] gives the
    empty sample sequence without an exception. *)
Theorem build_boundary (token_sequence : list Z) (max_length stride : Z) :
  1 <= len token_sequence -> 1 <= stride ->
  (max_length = len token_sequence - 1 ->
   forallb fits_int64 token_sequence = true ->
     exists s : Sample, build token_sequence max_length stride = Ok [s])
  /\ (len token_sequence <= max_length ->
     build token_sequence max_length stride = Ok []).
Proof.
  intros Hn Hs.
  destruct (starts_pos token_sequence max_length stride Hs) as (r & Hr & _ & Hlen).
  unfold len in Hlen at 1. split.
  - intros -> Hfit. rewrite (build_starts _ _ _ r Hfit Hr).
    exists (sample_at token_sequence (len token_sequence - 1) 0).
    replace (len token_sequence - (len token_sequence - 1)) with 1 in Hlen by lia.
    change (0 <? 1) with true in Hlen. change (1 - 1) with 0 in Hlen.
    rewrite Z.div_0_l in Hlen by lia.
    destruct r as [|i [|i' r]]; simpl length in Hlen; [lia | | lia].
    destruct (starts_pos_lookup _ _ _ _ 0%nat i Hs Hr eq_refl) as [-> _]. done.
  - intros Hge. destruct r as [|i r]; [by apply build_starts_nil|].
    destruct (Z.ltb_spec 0 (len token_sequence - max_length)); simpl length in Hlen; lia.
Qed.

Lemma build_boundary_witness :
  1 <= len [7; 8; 9] /\ 1 <= 2 /\ 2 = len [7; 8; 9] - 1
  /\ forallb fits_int64 [7; 8; 9] = true
  /\ exists s : Sample, build [7; 8; 9] 2 2 = Ok [s].
Proof.
  assert (H1 : 1 <= len [7; 8; 9]) by (unfold len; simpl; lia).
  assert (H2 : 1 <= 2) by lia.
  split; [exact H1|]. split; [exact H2|]. split; [reflexivity|].
  split; [reflexivity|].
  exact (proj1 (build_boundary [7; 8; 9] 2 2 H1 H2) eq_refl eq_refl).
Defined.

(** C6: for [max_length >= 1] and [stride >= 1] the loop visits exactly the
    start offsets [0, stride, 2 * stride, ...] that are strictly below
    [N - max_length], in strictly increasing order; the samples of a
    constructed dataset are the windows at these offsets in that order, and
    the dataset is constructed whenever the token ids fit the tensors'
    64-bit elements. *)
Theorem build_start_offsets (token_sequence : list Z) (max_length stride : Z) :
  1 <= max_length -> 1 <= stride ->
  exists (n : nat) (r : list Z),
    r = (fun k : nat => Z.of_nat k * stride) <$> seq 0 n
    /\ starts token_sequence max_length stride = Ok r
    /\ (forall ss : list Sample,
          build token_sequence max_length stride = Ok ss ->
          ss = (fun start : Z =>
                  (slice token_sequence start (start + max_length),
                   slice token_sequence (start + 1) (start + max_length + 1)))
               <$> r)
    /\ (forallb fits_int64 token_sequence = true ->
          build token_sequence max_length stride
          = Ok ((fun start : Z =>
                   (slice token_sequence start (start + max_length),
                    slice token_sequence (start + 1) (start + max_length + 1)))
                <$> r))
    /\ (forall k : nat,
          (k < n)%nat <-> Z.of_nat k * stride < len token_sequence - max_length)
    /\ (forall (j k : nat) (sj sk : Z),
          r !! j = Some sj -> r !! k = Some sk -> (j < k)%nat -> sj < sk).
Proof.
  intros Hm Hs.
  destruct (starts_pos token_sequence max_length stride Hs) as (r & Hr & Hlook & _).
  assert (Hn : forall k : nat,
    (k < length r)%nat <-> Z.of_nat k * stride < len token_sequence - max_length).
  { intros k. rewrite <- lookup_lt_is_Some, Hlook.
    destruct (Z.ltb_spec (Z.of_nat k * stride) (len token_sequence - max_length)).
    - split; [done | by eexists].
    - split; [by intros [? ?] | lia]. }
  exists (length r), r.
  split.
  { apply list_eq. intros k. rewrite list_lookup_fmap, Hlook.
    destruct (Z.ltb_spec (Z.of_nat k * stride) (len token_sequence - max_length)) as [Hk|Hk].
    - apply Hn in Hk. by rewrite lookup_seq_lt.
    - rewrite lookup_seq_ge; [done|]. specialize (Hn k). lia. }
  split; [done|]. split; [|split; [|split; [done|]]].
  - intros ss Hb. destruct (build_Ok_inv _ _ _ _ Hb) as (r' & Hr' & ->).
    rewrite Hr in Hr'. by injection Hr' as <-.
  - intros Hfit. by apply build_starts.
  - intros j k sj sk Hj Hk Hjk.
    destruct (starts_pos_lookup _ _ _ _ _ _ Hs Hr Hj) as [-> _].
    destruct (starts_pos_lookup _ _ _ _ _ _ Hs Hr Hk) as [-> _].
    nia.
Qed.

Lemma build_start_offsets_witness :
  1 <= 2 /\ 1 <= 3 /\
  exists (n : nat) (r : list Z),
    r = (fun k : nat => Z.of_nat k * 3) <$> seq 0 n
    /\ starts verdict_tokens 2 3 = Ok r
    /\ build verdict_tokens 2 3
       = Ok ((fun start : Z =>
                (slice verdict_tokens start (start + 2),
                 slice verdict_tokens (start + 1) (start + 2 + 1))) <$> r).
Proof.
  split; [lia|]. split; [lia|].
  destruct (build_start_offsets verdict_tokens 2 3) as (n & r & Hn & Hr & _ & Hb & _);
    [lia | lia |].
  exists n, r. split; [done|]. split; [done|]. by apply Hb.
Defined.

(** C7: on the token sequence [40, 367, 2885, 1464, 1807, 3619, 402, 271,
    10899, 2138, 257, 7026], followed by any further token ids that fit the
    tensors' 64-bit elements, with [max_length = 4] and [stride = 1], the
    first sample is [([40,367,2885,1464], [367,2885,1464,1807])] and the
    second is [([367,2885,1464,1807], [2885,1464,1807,3619])]. *)
Theorem build_verdict_first_samples (rest : list Z) :
  forallb fits_int64 rest = true ->
  exists ss : list Sample,
    build (verdict_tokens ++ rest) 4 1 = Ok ss
    /\ ss !! 0%nat = Some ([40; 367; 2885; 1464], [367; 2885; 1464; 1807])
    /\ ss !! 1%nat = Some ([367; 2885; 1464; 1807], [2885; 1464; 1807; 3619]).
Proof.
  intros Hrest_fit.
  set (l := verdict_tokens ++ rest).
  assert (Hfit : forallb fits_int64 l = true).
  { unfold l. rewrite forallb_app, Hrest_fit. reflexivity. }
  assert (Hl : len l = 12 + len rest).
  { unfold l, len. rewrite length_app. simpl. lia. }
  assert (Hrest : 0 <= len rest) by (unfold len; lia).
  destruct (starts_pos l 4 1) as (r & Hr & Hlook & _); [lia|].
  exists (sample_at l 4 <$> r). split; [by apply build_starts|].
  rewrite !list_lookup_fmap, !Hlook.
  destruct (Z.ltb_spec (Z.of_nat 0 * 1) (len l - 4)); [|lia].
  destruct (Z.ltb_spec (Z.of_nat 1 * 1) (len l - 4)); [|lia].
  unfold sample_at, input_window, target_window. simpl.
  change (Z.of_nat 0 * 1) with 0. change (Z.of_nat 1 * 1) with 1.
  change (0 + 4 + 1) with 5. change (0 + 4) with 4. change (0 + 1) with 1.
  change (1 + 4 + 1) with 6. change (1 + 4) with 5. change (1 + 1) with 2.
  rewrite (slice_between l 0 4), (slice_between l 1 5), (slice_between l 2 6) by lia.
  split; reflexivity.
Qed.

Lemma build_verdict_first_samples_witness :
  forallb fits_int64 [15632; 438] = true
  /\ exists ss : list Sample,
       build (verdict_tokens ++ [15632; 438]) 4 1 = Ok ss
       /\ ss !! 0%nat = Some ([40; 367; 2885; 1464], [367; 2885; 1464; 1807])
       /\ ss !! 1%nat = Some ([367; 2885; 1464; 1807], [2885; 1464; 1807; 3619]).
Proof.
  split; [reflexivity|].
  exact (build_verdict_first_samples [15632; 438] eq_refl).
Defined.

(** ** The dataset interface *)

(** C9: after a successful construction the list of input windows and the
    list of target windows have the same length, [__len__] returns it, and
    for every [idx] with [0 <= idx < __len__()], [__getitem__(idx)] returns
    the pair of the [idx]-th input window and the [idx]-th target window,
    which are the two windows appended for the [idx]-th value of the loop
    variable. *)
Theorem dataset_len_getitem (txt : string) (tokenizer : Tokenizer)
    (max_length stride : Z) (self : GPTDatasetV1) :
  __init__ txt tokenizer max_length stride = Ok self ->
  length (input_ids self) = length (target_ids self)
  /\ __len__ self = len (input_ids self)
  /\ __len__ self = len (target_ids self)
  /\ exists (token_ids : list Z) (r : list Z),
       encode tokenizer txt = Ok token_ids
       /\ starts token_ids max_length stride = Ok r
       /\ __len__ self = len r
       /\ forall idx : Z, 0 <= idx < __len__ self ->
            exists (i : Z) (x y : tensor),
              r !! Z.to_nat idx = Some i
              /\ input_ids self !! Z.to_nat idx = Some x
              /\ target_ids self !! Z.to_nat idx = Some y
              /\ torch_tensor (slice token_ids i (i + max_length)) = Ok x
              /\ torch_tensor (slice token_ids (i + 1) (i + max_length + 1)) = Ok y
              /\ __getitem__ self idx = Ok (x, y)
              /\ samples self !! Z.to_nat idx = Some (x, y).
Proof.
  unfold __init__.
  destruct (encode tokenizer txt) as [token_ids|e] eqn:Henc; [|done].
  intros Hinit.
  destruct (windows_Ok_inv _ _ _ _ Hinit) as (r & Hr & Hself).
  pose proof (windows_Ok_fits _ _ _ _ _ Hinit Hr) as Hfits.
  subst self.
  unfold __len__, samples, len. cbn [input_ids target_ids].
  rewrite !length_fmap. split; [done|]. split; [done|]. split; [done|].
  exists token_ids, r. split; [done|]. split; [done|]. split; [done|].
  intros idx Hidx.
  destruct (lookup_lt_is_Some_2 r (Z.to_nat idx)) as [i Hi]; [lia|].
  exists i, (input_window token_ids max_length i), (target_window token_ids max_length i).
  assert (Hx : (input_window token_ids max_length <$> r) !! Z.to_nat idx
               = Some (input_window token_ids max_length i))
    by (by rewrite list_lookup_fmap, Hi).
  assert (Hy : (target_window token_ids max_length <$> r) !! Z.to_nat idx
               = Some (target_window token_ids max_length i))
    by (by rewrite list_lookup_fmap, Hi).
  assert (Hfit : window_fits token_ids max_length i = true).
  { apply (proj1 (forallb_forall _ r) Hfits). apply list_elem_of_In.
    apply list_elem_of_lookup. eauto. }
  unfold window_fits in Hfit. apply andb_true_iff in Hfit as [Hfi Hft].
  split; [done|]. split; [done|]. split; [done|].
  split; [unfold torch_tensor; fold (input_window token_ids max_length i);
          by rewrite Hfi|].
  split; [unfold torch_tensor; fold (target_window token_ids max_length i);
          by rewrite Hft|].
  split.
  - unfold __getitem__. cbn [input_ids target_ids].
    rewrite (index_inside _ _ _ (proj1 Hidx) Hx), (index_inside _ _ _ (proj1 Hidx) Hy).
    done.
  - rewrite zip_windows, list_lookup_fmap, Hi. done.
Qed.

Lemma dataset_len_getitem_witness :
  __init__ EmptyString (constant_tokenizer [1; 2; 3]) 1 1
    = Ok {| input_ids := [[1]; [2]]; target_ids := [[2]; [3]] |}
  /\ __len__ {| input_ids := [[1]; [2]]; target_ids := [[2]; [3]] |}
     = len [[1]; [2]].
Proof.
  split; [reflexivity|].
  exact (proj1 (proj2 (dataset_len_getitem EmptyString (constant_tokenizer [1; 2; 3])
                         1 1 _ eq_refl))).
Defined.

(** C10: with [stride = 1], whenever samples [k] and [k + 1] both exist, the
    target window of sample [k] is equal, element by element, to the input
    window of sample [k + 1]. *)
Theorem stride_one_target_is_next_input (token_sequence : list Z) (max_length : Z)
    (ss : list Sample) (k : nat) (s s' : Sample) :
  build token_sequence max_length 1 = Ok ss ->
  ss !! k = Some s ->
  ss !! S k = Some s' ->
  snd s = fst s'
  /\ len (snd s) = len (fst s')
  /\ forall j : nat, snd s !! j = fst s' !! j.
Proof.
  intros Hb Hk Hk'.
  assert (Hs : 1 <= 1) by lia.
  destruct (build_Ok_inv _ _ _ _ Hb) as (r & Hr & ->).
  rewrite list_lookup_fmap in Hk, Hk'.
  destruct (r !! k) as [i|] eqn:Hi; [|done].
  destruct (r !! S k) as [i'|] eqn:Hi'; [|done].
  injection Hk as <-. injection Hk' as <-.
  destruct (starts_pos_lookup _ _ _ _ _ _ Hs Hr Hi) as [-> _].
  destruct (starts_pos_lookup _ _ _ _ _ _ Hs Hr Hi') as [-> _].
  assert (Heq : target_window token_sequence max_length (Z.of_nat k * 1)
                = input_window token_sequence max_length (Z.of_nat (S k) * 1)).
  { unfold target_window, input_window. f_equal; lia. }
  unfold sample_at. cbn [fst snd]. rewrite Heq. done.
Qed.

Lemma stride_one_target_is_next_input_witness :
  build [1; 2; 3; 4] 2 1 = Ok [([1; 2], [2; 3]); ([2; 3], [3; 4])]
  /\ snd ([1; 2], [2; 3]) = fst ([2; 3], [3; 4]).
Proof.
  split; [reflexivity|].
  exact (proj1 (stride_one_target_is_next_input [1; 2; 3; 4] 2
                  [([1; 2], [2; 3]); ([2; 3], [3; 4])] 0
                  ([1; 2], [2; 3]) ([2; 3], [3; 4]) eq_refl eq_refl eq_refl)).
Defined.

(** ** Further properties of the dataset *)

(** Whatever the window length and the stride, every window of every sample
    is a contiguous segment of the token sequence: no token is invented,
    reordered or repeated inside a window, and no window is longer than the
    sequence. *)
Theorem windows_are_segments (token_sequence : list Z) (max_length stride : Z)
    (ss : list Sample) (k : nat) (input target : tensor) :
  build token_sequence max_length stride = Ok ss ->
  ss !! k = Some (input, target) ->
  (exists before after : list Z, token_sequence = before ++ input ++ after)
  /\ (exists before after : list Z, token_sequence = before ++ target ++ after)
  /\ len input <= len token_sequence
  /\ len target <= len token_sequence
  /\ (forall x : Z, x ∈ input -> x ∈ token_sequence)
  /\ (forall x : Z, x ∈ target -> x ∈ token_sequence).
Proof.
  intros Hb Hk.
  destruct (build_Ok_inv _ _ _ _ Hb) as (r & _ & ->).
  rewrite list_lookup_fmap in Hk.
  destruct (r !! k) as [i|]; [|done]. injection Hk as <- <-.
  unfold input_window, target_window.
  destruct (slice_segment token_sequence i (i + max_length)) as (b1 & a1 & H1).
  destruct (slice_segment token_sequence (i + 1) (i + max_length + 1)) as (b2 & a2 & H2).
  split; [by exists b1, a1|]. split; [by exists b2, a2|].
  assert (Hlen : forall (b w a : list Z), token_sequence = b ++ w ++ a ->
                 len w <= len token_sequence).
  { intros b w a ->. unfold len. rewrite !length_app. lia. }
  assert (Hin : forall (b w a : list Z) (x : Z), token_sequence = b ++ w ++ a ->
                x ∈ w -> x ∈ token_sequence).
  { intros b w a x -> Hx. rewrite !elem_of_app. auto. }
  split; [by eapply Hlen|]. split; [by eapply Hlen|].
  split; intros x; by eapply Hin.
Qed.

Lemma windows_are_segments_witness :
  build [1; 2] 4 (-1) = Ok [([1; 2], [2]); ([2], [1; 2])]
  /\ exists before after : list Z, [1; 2] = before ++ [2] ++ after.
Proof.
  split; [reflexivity|].
  exact (proj1 (windows_are_segments [1; 2] 4 (-1) _ 1 [2] [1; 2] eq_refl eq_refl)).
Defined.

Lemma index_out_of_range {A} (l : list A) (i : Z) :
  i < - len l \/ len l <= i -> index l i = Raise IndexError.
Proof.
  intros Hi. unfold index, len in *.
  destruct (Z.ltb_spec i 0) as [Hneg|Hpos].
  - destruct (Z.ltb_spec (i + Z.of_nat (length l)) 0); [done | lia].
  - destruct (Z.ltb_spec i 0); [lia|].
    rewrite lookup_ge_None_2; [done | lia].
Qed.

Lemma index_from_end {A} (l : list A) (i : Z) :
  - len l <= i < 0 -> index l i = index l (i + len l).
Proof.
  intros Hi. unfold index. cbv zeta.
  assert (H1 : (i <? 0) = true) by (apply Z.ltb_lt; lia).
  assert (H2 : (i + len l <? 0) = false) by (apply Z.ltb_ge; lia).
  by rewrite H1, !H2.
Qed.

(** [__getitem__] follows the indexing protocol of Python lists on a
    constructed dataset of [n] samples: an index below [-n] or from [n] on
    raises [IndexError] (so every index does on an empty dataset), and an
    index [-n <= idx < 0] returns the sample at position [idx + n], counted
    from the end. *)
Theorem getitem_index_protocol (token_ids : list Z) (max_length stride : Z)
    (self : GPTDatasetV1) (idx : Z) :
  windows token_ids max_length stride = Ok self ->
  (idx < - __len__ self \/ __len__ self <= idx ->
     __getitem__ self idx = Raise IndexError)
  /\ (- __len__ self <= idx < 0 ->
     __getitem__ self idx = __getitem__ self (idx + __len__ self)
     /\ exists s : Sample,
          samples self !! Z.to_nat (idx + __len__ self) = Some s
          /\ __getitem__ self idx = Ok s).
Proof.
  intros Hw. destruct (windows_Ok_inv _ _ _ _ Hw) as (r & _ & ->).
  unfold __len__, __getitem__, samples. cbn [input_ids target_ids].
  assert (Hin : len (input_window token_ids max_length <$> r) = len r)
    by (unfold len; by rewrite length_fmap).
  assert (Htg : len (target_window token_ids max_length <$> r) = len r)
    by (unfold len; by rewrite length_fmap).
  rewrite Hin. split.
  - intros Hidx. rewrite index_out_of_range; [done | lia].
  - intros Hidx.
    rewrite (index_from_end (input_window token_ids max_length <$> r)) by lia.
    rewrite (index_from_end (target_window token_ids max_length <$> r)) by lia.
    rewrite Hin, Htg. split; [done|].
    destruct (lookup_lt_is_Some_2 r (Z.to_nat (idx + len r))) as [i Hi];
      [unfold len in *; lia|].
    exists (sample_at token_ids max_length i).
    rewrite zip_windows, list_lookup_fmap, Hi. split; [done|].
    rewrite (index_inside _ _ (input_window token_ids max_length i))
      by (lia || by rewrite list_lookup_fmap, Hi).
    rewrite (index_inside _ _ (target_window token_ids max_length i))
      by (lia || by rewrite list_lookup_fmap, Hi).
    done.
Qed.

Lemma getitem_index_protocol_witness :
  windows [1; 2; 3] 1 1 = Ok {| input_ids := [[1]; [2]]; target_ids := [[2]; [3]] |}
  /\ __getitem__ {| input_ids := [[1]; [2]]; target_ids := [[2]; [3]] |} 2
     = Raise IndexError
  /\ __getitem__ {| input_ids := [[1]; [2]]; target_ids := [[2]; [3]] |} (-1)
     = __getitem__ {| input_ids := [[1]; [2]]; target_ids := [[2]; [3]] |} (-1 + 2).
Proof.
  pose proof (getitem_index_protocol [1; 2; 3] 1 1 _ 2 eq_refl) as H2.
  pose proof (getitem_index_protocol [1; 2; 3] 1 1 _ (-1) eq_refl) as H1.
  split; [reflexivity|]. split.
  - apply (proj1 H2). right. unfold __len__, len. simpl. lia.
  - apply (proj2 H1). unfold __len__, len. simpl. lia.
Defined.

Lemma starts_pos_seq token_ids max_length stride :
  1 <= stride ->
  exists n : nat,
    starts token_ids max_length stride
    = Ok ((fun k : nat => Z.of_nat k * stride) <$> seq 0 n)
    /\ forall k : nat,
         (k < n)%nat <-> Z.of_nat k * stride < len token_ids - max_length.
Proof.
  intros Hs.
  destruct (starts_pos token_ids max_length stride Hs) as (r & Hr & Hlook & _).
  assert (Hn : forall k : nat,
    (k < length r)%nat <-> Z.of_nat k * stride < len token_ids - max_length).
  { intros k. rewrite <- lookup_lt_is_Some, Hlook.
    destruct (Z.ltb_spec (Z.of_nat k * stride) (len token_ids - max_length)).
    - split; [done | by eexists].
    - split; [by intros [? ?] | lia]. }
  exists (length r). split; [|done].
  rewrite Hr. f_equal. apply list_eq. intros k.
  rewrite list_lookup_fmap, Hlook.
  destruct (Z.ltb_spec (Z.of_nat k * stride) (len token_ids - max_length)) as [Hk|Hk].
  - apply Hn in Hk. by rewrite lookup_seq_lt.
  - rewrite lookup_seq_ge; [done|]. specialize (Hn k). lia.
Qed.

(** With a positive stride the dataset is empty exactly when the token
    sequence has at most [max_length] tokens; this covers the empty token
    sequence and window lengths that are not positive. *)
Theorem build_empty_iff (token_sequence : list Z) (max_length stride : Z) :
  1 <= stride ->
  (build token_sequence max_length stride = Ok []
   <-> len token_sequence <= max_length).
Proof.
  intros Hs.
  destruct (starts_pos_seq token_sequence max_length stride Hs) as (n & Hr & Hn).
  split.
  - intros Hb. destruct (build_Ok_inv _ _ _ _ Hb) as (r & Hr' & Hnil).
    rewrite Hr in Hr'. injection Hr' as <-.
    symmetry in Hnil. apply fmap_nil_inv in Hnil. apply fmap_nil_inv in Hnil.
    destruct n as [|n]; [|done].
    specialize (Hn 0%nat). lia.
  - intros Hle. destruct n as [|n]; [by apply build_starts_nil|].
    specialize (Hn 0%nat). lia.
Qed.

Lemma build_empty_iff_witness :
  1 <= 128 /\ build [] 256 128 = Ok [].
Proof.
  split; [lia|].
  apply (proj2 (build_empty_iff [] 256 128 ltac:(lia))).
  unfold len. simpl. lia.
Defined.

Lemma concat_tiles {A} (l : list A) (m off : nat) : forall n : nat,
  concat ((fun k : nat => take m (drop (off + k * m) l)) <$> seq 0 n)
  = take (n * m) (drop off l).
Proof.
  induction n as [|n IH]; [done|].
  rewrite seq_S, fmap_app, concat_app, IH. simpl.
  rewrite app_nil_r, <- (drop_drop l (n * m) off), take_take_drop.
  f_equal. lia.
Qed.

(** With [stride = max_length >= 1] the windows tile the token sequence: the
    input windows, one after the other, are the first [n * max_length]
    tokens, and the target windows are the [n * max_length] tokens after the
    first one, [n] being the number of samples. *)
Theorem build_tiles (token_sequence : list Z) (max_length : Z) (ss : list Sample) :
  1 <= max_length ->
  build token_sequence max_length max_length = Ok ss ->
  concat (fst <$> ss)
    = take (length ss * Z.to_nat max_length) token_sequence
  /\ concat (snd <$> ss)
    = take (length ss * Z.to_nat max_length) (drop 1 token_sequence).
Proof.
  intros Hm Hb.
  destruct (starts_pos_seq token_sequence max_length max_length Hm) as (n & Hr & Hn).
  rewrite (build_Ok_starts _ _ _ _ _ Hb Hr).
  rewrite !length_fmap, length_seq, <- !list_fmap_compose.
  pose proof (concat_tiles token_sequence (Z.to_nat max_length) 0 n) as H0.
  change (drop 0 token_sequence) with token_sequence in H0. rewrite <- H0.
  rewrite <- (concat_tiles token_sequence (Z.to_nat max_length) 1 n).
  split; f_equal; apply list_fmap_ext; intros i k Hk;
    apply lookup_seq in Hk as [-> Hi]; apply Hn in Hi; simpl;
    unfold input_window, target_window.
  - rewrite slice_inside by lia. f_equal. f_equal. lia.
  - replace (Z.of_nat i * max_length + max_length + 1)
      with (Z.of_nat i * max_length + 1 + max_length) by lia.
    rewrite slice_inside by lia. f_equal. f_equal. lia.
Qed.

Lemma build_tiles_witness :
  1 <= 2
  /\ build [1; 2; 3; 4; 5; 6] 2 2 = Ok [([1; 2], [2; 3]); ([3; 4], [4; 5])]
  /\ concat (fst <$> [([1; 2], [2; 3]); ([3; 4], [4; 5])])
     = take (2 * Z.to_nat 2) [1; 2; 3; 4; 5; 6].
Proof.
  split; [lia|]. split; [reflexivity|].
  exact (proj1 (build_tiles [1; 2; 3; 4; 5; 6] 2 _ ltac:(lia) eq_refl)).
Defined.

(** With [1 <= stride <= max_length], two consecutive input windows overlap
    in [max_length - stride] tokens: the input window of sample [k] without
    its first [stride] tokens is the beginning of the input window of sample
    [k + 1]; the same holds for the target windows. *)
Theorem consecutive_windows_overlap (token_sequence : list Z) (max_length stride : Z)
    (ss : list Sample) (k : nat) (s s' : Sample) :
  1 <= stride <= max_length ->
  build token_sequence max_length stride = Ok ss ->
  ss !! k = Some s ->
  ss !! S k = Some s' ->
  drop (Z.to_nat stride) (fst s) = take (Z.to_nat (max_length - stride)) (fst s')
  /\ drop (Z.to_nat stride) (snd s) = take (Z.to_nat (max_length - stride)) (snd s').
Proof.
  intros Hs Hb Hk Hk'.
  assert (Hs1 : 1 <= stride) by lia.
  destruct (build_Ok_inv _ _ _ _ Hb) as (r & Hr & ->).
  rewrite list_lookup_fmap in Hk, Hk'.
  destruct (r !! k) as [i|] eqn:Hi; [|done].
  destruct (r !! S k) as [i'|] eqn:Hi'; [|done].
  injection Hk as <-. injection Hk' as <-.
  destruct (starts_pos_lookup _ _ _ _ _ _ Hs1 Hr Hi) as [-> Hb1].
  destruct (starts_pos_lookup _ _ _ _ _ _ Hs1 Hr Hi') as [-> Hb2].
  assert (Hshift : forall (l : list Z) (a : nat),
    drop (Z.to_nat stride) (take (Z.to_nat max_length) (drop a l))
    = take (Z.to_nat (max_length - stride))
        (take (Z.to_nat max_length) (drop (a + Z.to_nat stride) l))).
  { intros l a. rewrite take_take, <- (drop_drop l (Z.to_nat stride) a).
    rewrite (take_drop_commute (drop a l)). do 2 f_equal. lia. }
  unfold sample_at, input_window, target_window. cbn [fst snd].
  replace (Z.of_nat k * stride + max_length + 1)
    with (Z.of_nat k * stride + 1 + max_length) by lia.
  replace (Z.of_nat (S k) * stride + max_length + 1)
    with (Z.of_nat (S k) * stride + 1 + max_length) by lia.
  rewrite !slice_inside by lia. rewrite !Hshift.
  split; do 3 f_equal; lia.
Qed.

Lemma consecutive_windows_overlap_witness :
  1 <= 2 <= 3
  /\ build [1; 2; 3; 4; 5; 6] 3 2 = Ok [([1; 2; 3], [2; 3; 4]); ([3; 4; 5], [4; 5; 6])]
  /\ drop (Z.to_nat 2) [1; 2; 3] = take (Z.to_nat (3 - 2)) [3; 4; 5].
Proof.
  split; [lia|]. split; [reflexivity|].
  exact (proj1 (consecutive_windows_overlap [1; 2; 3; 4; 5; 6] 3 2 _ 0
                  ([1; 2; 3], [2; 3; 4]) ([3; 4; 5], [4; 5; 6])
                  ltac:(lia) eq_refl eq_refl eq_refl)).
Defined.

(** With [1 <= stride <= max_length < N] no token is skipped between two
    windows of a constructed dataset: every position [p < N - stride] of the token sequence lies in
    the input window of some sample, at the offset [j = p - k * stride] of
    that sample, and position [p + 1] lies in its target window at the same
    offset.  Only tokens among the last [stride] ones can be left out. *)
Theorem windows_cover_tokens (token_sequence : list Z) (max_length stride p : Z)
    (ss : list Sample) :
  1 <= stride <= max_length ->
  max_length < len token_sequence ->
  0 <= p < len token_sequence - stride ->
  build token_sequence max_length stride = Ok ss ->
  exists (k j : nat) (input target : tensor) (x y : Z),
    ss !! k = Some (input, target)
    /\ Z.of_nat j = p - Z.of_nat k * stride
    /\ token_sequence !! Z.to_nat p = Some x
    /\ input !! j = Some x
    /\ token_sequence !! Z.to_nat (p + 1) = Some y
    /\ target !! j = Some y.
Proof.
  intros Hs Hm Hp Hb.
  assert (Hs1 : 1 <= stride) by lia.
  destruct (starts_pos token_sequence max_length stride Hs1) as (r & Hr & Hlook & _).
  rewrite (build_Ok_starts _ _ _ _ _ Hb Hr).
  assert (Hk : exists k : nat,
    Z.of_nat k * stride < len token_sequence - max_length
    /\ Z.of_nat k * stride <= p < Z.of_nat k * stride + max_length).
  { pose proof (Z.mul_div_le p stride ltac:(lia)) as Hlo.
    pose proof (Z.mul_succ_div_gt p stride ltac:(lia)) as Hhi.
    assert (Hq : 0 <= p / stride) by (apply Z.div_pos; lia).
    destruct (Z.lt_ge_cases (p / stride * stride) (len token_sequence - max_length))
      as [Hin|Hout].
    - exists (Z.to_nat (p / stride)). rewrite Z2Nat.id by done. lia.
    - assert (Hlen : (0 < length r)%nat).
      { apply lookup_lt_is_Some. rewrite Hlook.
        destruct (Z.ltb_spec (Z.of_nat 0 * stride) (len token_sequence - max_length));
          [by eexists | lia]. }
      exists (length r - 1)%nat.
      assert (Hlast : is_Some (r !! (length r - 1)%nat))
        by (apply lookup_lt_is_Some; lia).
      assert (Hend : r !! length r = None) by (by apply lookup_ge_None_2).
      rewrite Hlook in Hlast, Hend.
      destruct (Z.ltb_spec (Z.of_nat (length r - 1) * stride)
                  (len token_sequence - max_length)) as [Hl|Hl];
        [|by destruct Hlast].
      destruct (Z.ltb_spec (Z.of_nat (length r) * stride)
                  (len token_sequence - max_length)) as [He|He]; [done|].
      nia. }
  destruct Hk as (k & Hin & Hk).
  destruct (lookup_inside token_sequence p) as [x Hx]; [lia|].
  destruct (lookup_inside token_sequence (p + 1)) as [y Hy]; [lia|].
  exists k, (Z.to_nat (p - Z.of_nat k * stride)),
    (input_window token_sequence max_length (Z.of_nat k * stride)),
    (target_window token_sequence max_length (Z.of_nat k * stride)), x, y.
  split.
  { rewrite list_lookup_fmap, Hlook.
    destruct (Z.ltb_spec (Z.of_nat k * stride) (len token_sequence - max_length));
      [done | lia]. }
  split; [lia|]. split; [done|].
  unfold input_window, target_window, tensor.
  replace (Z.of_nat k * stride + max_length + 1)
    with (Z.of_nat k * stride + 1 + max_length) by lia.
  rewrite !slice_inside_lookup by lia.
  split; [rewrite <- Hx; f_equal; lia|]. split; [done|].
  rewrite <- Hy. f_equal. lia.
Qed.

Lemma windows_cover_tokens_witness :
  1 <= 2 <= 3 /\ 3 < len [1; 2; 3; 4; 5; 6; 7] /\ 0 <= 4 < len [1; 2; 3; 4; 5; 6; 7] - 2
  /\ build [1; 2; 3; 4; 5; 6; 7] 3 2
     = Ok [([1; 2; 3], [2; 3; 4]); ([3; 4; 5], [4; 5; 6])]
  /\ exists (k j : nat) (input target : tensor) (x y : Z),
       [([1; 2; 3], [2; 3; 4]); ([3; 4; 5], [4; 5; 6])] !! k = Some (input, target)
       /\ Z.of_nat j = 4 - Z.of_nat k * 2
       /\ [1; 2; 3; 4; 5; 6; 7] !! Z.to_nat 4 = Some x
       /\ input !! j = Some x
       /\ [1; 2; 3; 4; 5; 6; 7] !! Z.to_nat (4 + 1) = Some y
       /\ target !! j = Some y.
Proof.
  assert (H1 : 1 <= 2 <= 3) by lia.
  assert (H2 : 3 < len [1; 2; 3; 4; 5; 6; 7]) by (unfold len; simpl; lia).
  assert (H3 : 0 <= 4 < len [1; 2; 3; 4; 5; 6; 7] - 2) by (unfold len; simpl; lia).
  split; [exact H1|]. split; [exact H2|]. split; [exact H3|].
  split; [reflexivity|].
  exact (windows_cover_tokens [1; 2; 3; 4; 5; 6; 7] 3 2 4 _ H1 H2 H3 eq_refl).
Defined.

(** ** Strides below zero *)

Lemma range_continues_opp i stop step :
  step <> 0 ->
  range_continues (- i) (- stop) (- step) = range_continues i stop step.
Proof.
  intros Hstep. unfold range_continues.
  destruct (Z.ltb_spec 0 step), (Z.ltb_spec 0 (- step)); lia.
Qed.

(** Counting down is counting up on the negated numbers. *)
Lemma range_iter_opp stop step fuel : forall i,
  step <> 0 ->
  range_iter fuel i stop step
  = Z.opp <$> range_iter fuel (- i) (- stop) (- step).
Proof.
  induction fuel as [|fuel IH]; intros i Hstep; [done|].
  cbn [range_iter]. rewrite range_continues_opp by done.
  destruct (range_continues i stop step); [|done].
  rewrite fmap_cons, Z.opp_involutive. f_equal.
  rewrite IH by done. by replace (- (i + step)) with (- i + - step) by lia.
Qed.

(** A negative stride is accepted: the loop counts downwards from 0 while
    the offset is above [N - max_length].  So, on token ids that fit the
    tensors' 64-bit elements, nothing is produced when [max_length <= N], and
    [floor((max_length - N - 1) / -stride) + 1] samples are produced when
    [max_length > N]; the [k]-th of them is read at the negative offset
    [k * stride]. *)
Theorem build_negative_stride (token_sequence : list Z) (max_length stride : Z) :
  stride < 0 ->
  forallb fits_int64 token_sequence = true ->
  exists ss : list Sample,
    build token_sequence max_length stride = Ok ss
    /\ len ss = (if len token_sequence <? max_length
                 then (max_length - len token_sequence - 1) / (- stride) + 1
                 else 0)
    /\ (max_length <= len token_sequence -> ss = [])
    /\ forall (k : nat) (s : Sample), ss !! k = Some s ->
         s = (slice token_sequence (Z.of_nat k * stride)
                (Z.of_nat k * stride + max_length),
              slice token_sequence (Z.of_nat k * stride + 1)
                (Z.of_nat k * stride + max_length + 1)).
Proof.
  intros Hs Hfit.
  set (N := len token_sequence).
  set (up := range_iter (Z.to_nat (Z.abs (N - max_length - 0))) (- 0)
               (- (N - max_length)) (- stride)).
  assert (Hr : starts token_sequence max_length stride = Ok (Z.opp <$> up)).
  { unfold starts, range. destruct (Z.eqb_spec stride 0); [lia|].
    by rewrite range_iter_opp by lia. }
  assert (Hlen : len up = if N <? max_length
                          then (max_length - N - 1) / (- stride) + 1 else 0).
  { unfold up. rewrite range_iter_length by lia.
    destruct (Z.ltb_spec (- 0) (- (N - max_length))), (Z.ltb_spec N max_length);
      try lia.
    by replace (- (N - max_length) - - 0 - 1) with (max_length - N - 1) by lia. }
  exists (sample_at token_sequence max_length <$> (Z.opp <$> up)).
  split; [by apply build_starts|]. split; [|split].
  - unfold len at 1. rewrite !length_fmap. exact Hlen.
  - intros Hle. destruct up as [|i up']; [done|].
    destruct (Z.ltb_spec N max_length); [lia|].
    unfold len in Hlen. simpl in Hlen. lia.
  - intros k s Hk. rewrite !list_lookup_fmap in Hk.
    unfold up in Hk. rewrite range_iter_lookup in Hk by lia.
    destruct (Z.ltb_spec (- 0 + Z.of_nat k * - stride) (- (N - max_length)));
      [|done].
    injection Hk as <-.
    replace (- (- 0 + Z.of_nat k * - stride)) with (Z.of_nat k * stride) by lia.
    done.
Qed.

Lemma build_negative_stride_witness :
  -1 < 0 /\ forallb fits_int64 [1; 2] = true
  /\ exists ss : list Sample,
       build [1; 2] 4 (-1) = Ok ss
       /\ len ss = (if len [1; 2] <? 4 then (4 - len [1; 2] - 1) / (- -1) + 1 else 0).
Proof.
  split; [lia|]. split; [reflexivity|].
  destruct (build_negative_stride [1; 2] 4 (-1) ltac:(lia) eq_refl) as (ss & Hb & Hl & _).
  exists ss. auto.
Defined.

(** ** intro.py: the printed next-token tasks *)

Lemma print_each_ok {A} (body : Z -> result A) (f : Z -> A) (r : list Z) :
  (forall i, i ∈ r -> body i = Ok (f i)) ->
  print_each body r = (f <$> r, None).
Proof.
  induction r as [|i r IH]; intros Hok; [done|].
  cbn [print_each]. rewrite (Hok i) by apply list_elem_of_here.
  rewrite IH; [done|]. intros i' Hi'. apply Hok. by apply list_elem_of_further.
Qed.

Lemma print_each_raise {A} (body : Z -> result A) (f : Z -> A) (r1 r2 : list Z)
    (i : Z) (e : exception) :
  (forall i', i' ∈ r1 -> body i' = Ok (f i')) ->
  body i = Raise e ->
  print_each body (r1 ++ i :: r2) = (f <$> r1, Some e).
Proof.
  intros Hok He. induction r1 as [|i1 r1 IH]; simpl.
  - by rewrite He.
  - rewrite (Hok i1) by apply list_elem_of_here.
    rewrite IH; [done|]. intros i' Hi'. apply Hok. by apply list_elem_of_further.
Qed.

(** [range(1, n + 1)] is [1, 2, ..., n]. *)
Lemma range_from_one (n : nat) :
  range 1 (Z.of_nat n + 1) 1 = Ok ((fun k : nat => 1 + Z.of_nat k) <$> seq 0 n).
Proof.
  unfold range. destruct (Z.eqb_spec 1 0); [lia|].
  f_equal. apply list_eq. intros k.
  rewrite range_iter_lookup, list_lookup_fmap by lia.
  destruct (Z.ltb_spec (1 + Z.of_nat k * 1) (Z.of_nat n + 1)).
  - rewrite lookup_seq_lt by lia. simpl. f_equal. lia.
  - by rewrite lookup_seq_ge by lia.
Qed.

Lemma slice_to_take {A} (l : list A) (i : Z) :
  0 <= i <= len l -> slice_to l i = take (Z.to_nat i) l.
Proof.
  intros Hi. unfold slice_to. rewrite slice_between by lia.
  by replace (i - 0) with i by lia.
Qed.

Lemma slice_from_drop {A} (l : list A) (lo : Z) :
  0 <= lo -> slice_from l lo = drop (Z.to_nat lo) l.
Proof.
  intros Hlo. unfold slice_from, slice, adjust_index.
  destruct (Z.ltb_spec lo 0); [lia|].
  destruct (Z.ltb_spec (len l) 0); [unfold len in *; lia|].
  rewrite Z.min_id. unfold len.
  destruct (Z.le_ge_cases lo (Z.of_nat (length l))).
  - rewrite Z.min_l by done. apply take_ge. rewrite length_drop. lia.
  - rewrite Z.min_r by done. rewrite Nat2Z.id.
    rewrite !drop_ge by lia. by rewrite take_nil.
Qed.

(** The line the loop prints for [i], as a function of [i]. *)
Lemma context_line_inside (enc_sample : list Z) (i : Z) :
  0 <= i < len enc_sample ->
  context_line enc_sample i
  = Ok (take (Z.to_nat i) enc_sample, default 0 (enc_sample !! Z.to_nat i)).
Proof.
  intros Hi. unfold context_line.
  destruct (lookup_inside enc_sample i Hi) as [d Hd].
  rewrite (index_inside _ _ d) by (lia || done).
  rewrite slice_to_take by lia. by rewrite Hd.
Qed.

Lemma context_line_outside (enc_sample : list Z) (i : Z) :
  len enc_sample <= i -> context_line enc_sample i = Raise IndexError.
Proof.
  intros Hi. unfold context_line. rewrite index_out_of_range; [done | lia].
Qed.

Lemma print_contexts_range (enc_sample : list Z) (n : nat) :
  print_contexts enc_sample (Z.of_nat n)
  = print_each (context_line enc_sample)
      ((fun k : nat => 1 + Z.of_nat k) <$> seq 0 n).
Proof. unfold print_contexts. by rewrite range_from_one. Qed.

(** The whole transcript of the loop of lines 32-35: the lines for
    [i = 1, 2, ...] as long as [i <= context_size] and [i < len(enc_sample)],
    and [IndexError] when the second bound stopped the loop. *)
Lemma print_contexts_transcript (enc_sample : list Z) (context_size : Z) :
  0 <= context_size ->
  print_contexts enc_sample context_size
  = ((fun i : Z =>
        (take (Z.to_nat i) enc_sample, default 0 (enc_sample !! Z.to_nat i)))
       <$> ((fun k : nat => 1 + Z.of_nat k)
              <$> seq 0 (Z.to_nat (Z.min context_size
                                     (Z.max 0 (len enc_sample - 1))))),
     if context_size <? Z.max 1 (len enc_sample) then None else Some IndexError).
Proof.
  intros Hc.
  set (m := Z.to_nat (Z.min context_size (Z.max 0 (len enc_sample - 1)))).
  rewrite <- (Z2Nat.id context_size) at 1 by lia.
  rewrite print_contexts_range.
  destruct (Z.ltb_spec context_size (Z.max 1 (len enc_sample))) as [Hin|Hout].
  - replace (Z.to_nat context_size) with m by (unfold m; lia).
    apply print_each_ok.
    intros i Hi. apply list_elem_of_fmap in Hi as (k & -> & Hk).
    apply elem_of_seq in Hk. apply context_line_inside. unfold m in Hk. lia.
  - replace (Z.to_nat context_size) with (m + S (Z.to_nat context_size - S m))%nat
      by (unfold m; lia).
    rewrite seq_app, <- cons_seq, fmap_app, fmap_cons.
    apply print_each_raise.
    + intros i Hi. apply list_elem_of_fmap in Hi as (k & -> & Hk).
      apply elem_of_seq in Hk. apply context_line_inside. unfold m in Hk. lia.
    + apply context_line_outside. unfold m. simpl. lia.
Qed.

(** Line [k] of such a transcript. *)
Lemma context_lines_lookup (enc_sample : list Z) (n k : nat) :
  (k < n)%nat -> Z.of_nat k + 1 < len enc_sample ->
  exists desired : Z,
    enc_sample !! S k = Some desired
    /\ ((fun i : Z =>
           (take (Z.to_nat i) enc_sample, default 0 (enc_sample !! Z.to_nat i)))
          <$> ((fun k : nat => 1 + Z.of_nat k) <$> seq 0 n)) !! k
       = Some (take (S k) enc_sample, desired).
Proof.
  intros Hk Hlen.
  destruct (lookup_inside enc_sample (1 + Z.of_nat k)) as [d Hd]; [lia|].
  replace (Z.to_nat (1 + Z.of_nat k)) with (S k) in Hd by lia.
  exists d. split; [done|].
  rewrite !list_lookup_fmap, lookup_seq_lt by done. simpl.
  replace (Z.to_nat (1 + Z.of_nat k)) with (S k) by lia.
  by rewrite Hd.
Qed.

(** When the sample has more than [context_size] tokens, the loop of lines
    32-35 ends without an exception after [context_size] lines; line [k]
    (from 0) shows the first [k + 1] tokens as context and token [k + 1] as
    the desired one. *)
Theorem print_contexts_complete (enc_sample : list Z) (context_size : Z) :
  0 <= context_size < len enc_sample ->
  exists lines : list (list Z * Z),
    print_contexts enc_sample context_size = (lines, None)
    /\ len lines = context_size
    /\ forall k : nat, Z.of_nat k < context_size ->
         exists desired : Z,
           enc_sample !! S k = Some desired
           /\ lines !! k = Some (take (S k) enc_sample, desired).
Proof.
  intros Hc. eexists. split; [|split].
  - rewrite print_contexts_transcript by lia.
    destruct (Z.ltb_spec context_size (Z.max 1 (len enc_sample))); [done | lia].
  - unfold len at 1. rewrite !length_fmap, length_seq. lia.
  - intros k Hk. apply context_lines_lookup; lia.
Qed.

Lemma print_contexts_complete_witness :
  0 <= 2 < len [290; 4920; 2241]
  /\ exists lines : list (list Z * Z),
       print_contexts [290; 4920; 2241] 2 = (lines, None) /\ len lines = 2.
Proof.
  assert (H : 0 <= 2 < len [290; 4920; 2241]) by (unfold len; simpl; lia).
  split; [exact H|].
  destruct (print_contexts_complete [290; 4920; 2241] 2 H) as (lines & Hp & Hl & _).
  exists lines. auto.
Defined.

(** When the sample has at most [context_size] tokens (and the loop has at
    least one iteration), reading the desired token fails: the loop ends
    with [IndexError] after having printed the lines for [i = 1, ...,
    len(enc_sample) - 1], none when the sample is empty. *)
Theorem print_contexts_short_sample (enc_sample : list Z) (context_size : Z) :
  1 <= context_size ->
  len enc_sample <= context_size ->
  exists lines : list (list Z * Z),
    print_contexts enc_sample context_size = (lines, Some IndexError)
    /\ len lines = Z.max 0 (len enc_sample - 1)
    /\ forall (k : nat) (line : list Z * Z), lines !! k = Some line ->
         exists desired : Z,
           enc_sample !! S k = Some desired
           /\ line = (take (S k) enc_sample, desired).
Proof.
  intros Hc Hshort. eexists. split; [|split].
  - rewrite print_contexts_transcript by lia.
    destruct (Z.ltb_spec context_size (Z.max 1 (len enc_sample))); [lia | done].
  - unfold len at 1. rewrite !length_fmap, length_seq. lia.
  - intros k line Hk.
    assert (Hkn : (k < Z.to_nat (Z.min context_size (Z.max 0 (len enc_sample - 1))))%nat).
    { apply lookup_lt_Some in Hk. by rewrite !length_fmap, length_seq in Hk. }
    destruct (context_lines_lookup enc_sample _ k Hkn) as (d & Hd & Hline); [lia|].
    exists d. split; [done|]. rewrite Hline in Hk. by injection Hk as <-.
Qed.

Lemma print_contexts_short_sample_witness :
  1 <= 4 /\ len [290; 4920; 2241] <= 4
  /\ exists lines : list (list Z * Z),
       print_contexts [290; 4920; 2241] 4 = (lines, Some IndexError)
       /\ len lines = Z.max 0 (len [290; 4920; 2241] - 1).
Proof.
  assert (H : len [290; 4920; 2241] <= 4) by (unfold len; simpl; lia).
  split; [lia|]. split; [exact H|].
  destruct (print_contexts_short_sample [290; 4920; 2241] 4 ltac:(lia) H)
    as (lines & Hp & Hl & _).
  exists lines. auto.
Defined.

(** The script of intro.py on an encoded text: the sample is
    [encoded_text[50:]] and [context_size] is 4.  With more than 54 tokens
    the four lines are printed, line [k] showing
    [encoded_text[50 : 51 + k]] and [encoded_text[51 + k]]; with 54 tokens or
    fewer the loop raises [IndexError] after [max(0, N - 51)] lines. *)
Theorem intro_contexts_threshold (encoded_text : list Z) :
  (54 < len encoded_text ->
     exists lines : list (list Z * Z),
       intro_contexts encoded_text = (lines, None)
       /\ length lines = 4%nat
       /\ forall k : nat, (k < 4)%nat ->
            exists desired : Z,
              encoded_text !! (51 + k)%nat = Some desired
              /\ lines !! k = Some (take (S k) (drop 50 encoded_text), desired))
  /\ (len encoded_text <= 54 ->
     exists lines : list (list Z * Z),
       intro_contexts encoded_text = (lines, Some IndexError)
       /\ len lines = Z.max 0 (len encoded_text - 51)).
Proof.
  unfold intro_contexts, context_size. cbv zeta.
  rewrite slice_from_drop by lia.
  assert (Hlen : len (drop (Z.to_nat 50) encoded_text)
                 = Z.max 0 (len encoded_text - 50)).
  { unfold len. rewrite length_drop. lia. }
  rewrite print_contexts_transcript by lia. rewrite Hlen.
  split.
  - intros Hlong. eexists. split; [|split].
    + destruct (Z.ltb_spec 4 (Z.max 1 (Z.max 0 (len encoded_text - 50))));
        [done | lia].
    + rewrite !length_fmap, length_seq. lia.
    + intros k Hk.
      destruct (context_lines_lookup (drop (Z.to_nat 50) encoded_text)
                  (Z.to_nat (Z.min 4 (Z.max 0 (Z.max 0 (len encoded_text - 50) - 1))))
                  k) as (d & Hd & Hline); [lia | lia |].
      exists d. rewrite lookup_drop in Hd.
      replace (Z.to_nat 50 + S k)%nat with (51 + k)%nat in Hd by lia.
      split; [done|]. exact Hline.
  - intros Hshort. eexists. split.
    + destruct (Z.ltb_spec 4 (Z.max 1 (Z.max 0 (len encoded_text - 50))));
        [lia | done].
    + unfold len at 1. rewrite !length_fmap, length_seq. lia.
Qed.

(** The next-token tasks are read off the first training sample: when the
    sample has more than [context_size >= 1] tokens, a dataset constructed
    from it with [max_length = context_size] (and any positive stride) has a
    first sample [(input, target)], and line [k] of the loop shows the first
    [k + 1] tokens of [input] with [target[k]] as the desired token. *)
Theorem contexts_from_first_sample (enc_sample : list Z) (context_size stride : Z)
    (ss : list Sample) :
  1 <= context_size < len enc_sample ->
  1 <= stride ->
  build enc_sample context_size stride = Ok ss ->
  exists (lines : list (list Z * Z)) (input target : tensor),
    print_contexts enc_sample context_size = (lines, None)
    /\ ss !! 0%nat = Some (input, target)
    /\ len lines = len input
    /\ forall k : nat, Z.of_nat k < context_size ->
         exists desired : Z,
           target !! k = Some desired
           /\ lines !! k = Some (take (S k) input, desired).
Proof.
  intros Hc Hs Hb.
  destruct (starts_pos enc_sample context_size stride Hs) as (r & Hr & Hlook & _).
  rewrite (build_Ok_starts _ _ _ _ _ Hb Hr).
  eexists _, (input_window enc_sample context_size 0),
    (target_window enc_sample context_size 0).
  split.
  { rewrite print_contexts_transcript by lia.
    destruct (Z.ltb_spec context_size (Z.max 1 (len enc_sample))); [done | lia]. }
  split.
  { rewrite list_lookup_fmap, Hlook.
    destruct (Z.ltb_spec (Z.of_nat 0 * stride) (len enc_sample - context_size));
      [done | lia]. }
  unfold input_window, target_window, tensor.
  split.
  { rewrite slice_inside_length by lia.
    unfold len in *. rewrite !length_fmap, length_seq. lia. }
  intros k Hk.
  destruct (context_lines_lookup enc_sample
              (Z.to_nat (Z.min context_size (Z.max 0 (len enc_sample - 1)))) k)
    as (d & Hd & Hline); [lia | lia |].
  exists d.
  replace (0 + context_size + 1) with (0 + 1 + context_size) by lia.
  rewrite slice_inside_lookup by lia.
  replace (Z.to_nat (0 + 1 + Z.of_nat k)) with (S k) by lia.
  split; [done|].
  rewrite Hline, slice_inside by lia. rewrite take_take.
  change (drop (Z.to_nat 0) enc_sample) with enc_sample.
  by replace (S k `min` Z.to_nat context_size)%nat with (S k) by lia.
Qed.

Lemma contexts_from_first_sample_witness :
  1 <= 2 < len [290; 4920; 2241; 287] /\ 1 <= 1
  /\ build [290; 4920; 2241; 287] 2 1
     = Ok [([290; 4920], [4920; 2241]); ([4920; 2241], [2241; 287])]
  /\ exists (lines : list (list Z * Z)) (input target : tensor),
       print_contexts [290; 4920; 2241; 287] 2 = (lines, None)
       /\ [([290; 4920], [4920; 2241]); ([4920; 2241], [2241; 287])] !! 0%nat
          = Some (input, target)
       /\ len lines = len input.
Proof.
  assert (H : 1 <= 2 < len [290; 4920; 2241; 287]) by (unfold len; simpl; lia).
  split; [exact H|]. split; [lia|]. split; [reflexivity|].
  destruct (contexts_from_first_sample [290; 4920; 2241; 287] 2 1 _ H ltac:(lia) eq_refl)
    as (lines & input & target & Hp & H0 & Hl & _).
  exists lines, input, target. auto.
Defined.

(** ** The batches of the loader *)

Section Batches.
Variable b : nat.
Hypothesis b_pos : (0 < b)%nat.

(** The loop of the batch sampler cuts the indices, preceded by the batch
    under construction, into [q] consecutive batches of [b] indices, and
    leaves the fewer than [b] indices that remain. *)
Lemma batch_sampler_loop_chunks (indices : list Z) : forall batch : list Z,
  (length batch < b)%nat ->
  exists q : nat,
    (q * b <= length (batch ++ indices) < q * b + b)%nat
    /\ batch_sampler_loop (Z.of_nat b) indices batch
       = ((fun k : nat => take b (drop (k * b) (batch ++ indices))) <$> seq 0 q,
          drop (q * b) (batch ++ indices)).
Proof.
  induction indices as [|idx rest IH]; intros batch Hbatch.
  - exists 0%nat. rewrite app_nil_r. split; [simpl; lia | done].
  - cbn [batch_sampler_loop].
    replace (batch ++ idx :: rest) with ((batch ++ [idx]) ++ rest)
      by (by rewrite <- app_assoc).
    assert (Hlen : length (batch ++ [idx]) = S (length batch))
      by (rewrite length_app; simpl; lia).
    unfold len. destruct (Z.eqb_spec (Z.of_nat (length (batch ++ [idx]))) (Z.of_nat b))
      as [Hfull|Hpart].
    + destruct (IH []) as (q & Hq & Hrun); [simpl; lia|].
      rewrite Hrun. simpl app in *. exists (S q). split.
      { rewrite length_app. lia. }
      f_equal.
      * rewrite <- cons_seq, fmap_cons, <- fmap_S_seq, <- list_fmap_compose.
        f_equal.
        { change (drop (0 * b) ((batch ++ [idx]) ++ rest))
            with ((batch ++ [idx]) ++ rest).
          by rewrite take_app_length' by lia. }
        apply list_fmap_ext. intros _ k _. simpl.
        by rewrite drop_app_add' by lia.
      * replace (S q * b)%nat with (b + q * b)%nat by lia.
        by rewrite drop_app_add' by lia.
    + destruct (IH (batch ++ [idx])) as (q & Hq & Hrun); [lia|].
      exists q. by rewrite Hrun.
Qed.

(** The [k]-th batch the sampler yields: a full batch while [b] more indices
    are left, then the shorter rest unless it is empty or dropped. *)
Lemma batch_sampler_lookup (drop_last : bool) (indices : list Z) (k : nat) :
  batch_sampler (Z.of_nat b) drop_last indices !! k
  = if decide ((k + 1) * b <= length indices)%nat
    then Some (take b (drop (k * b) indices))
    else if decide ((k * b < length indices)%nat /\ drop_last = false)
         then Some (drop (k * b) indices)
         else None.
Proof.
  unfold batch_sampler.
  destruct (batch_sampler_loop_chunks indices []) as (q & Hq & Hrun); [simpl; lia|].
  rewrite Hrun. simpl app in *. clear Hrun.
  set (full := (fun k0 : nat => take b (drop (k0 * b) indices)) <$> seq 0 q).
  assert (Hfull_len : length full = q) by (unfold full; by rewrite length_fmap, length_seq).
  assert (Hfull : forall k0, (k0 < q)%nat ->
                    full !! k0 = Some (take b (drop (k0 * b) indices))).
  { intros k0 Hk0. unfold full. by rewrite list_lookup_fmap, lookup_seq_lt by lia. }
  assert (Hlast : len (drop (q * b) indices) = Z.of_nat (length indices - q * b))
    by (unfold len; by rewrite length_drop).
  rewrite Hlast.
  destruct (decide ((k + 1) * b <= length indices)%nat) as [Hk|Hk].
  - assert (k < q)%nat by nia.
    destruct ((0 <? Z.of_nat (length indices - q * b)) && negb drop_last).
    + rewrite lookup_app_l by lia. by apply Hfull.
    + by apply Hfull.
  - assert (q <= k)%nat by nia.
    destruct (Z.ltb_spec 0 (Z.of_nat (length indices - q * b))) as [Hrem|Hrem];
      destruct drop_last; simpl.
    + rewrite lookup_ge_None_2 by lia. rewrite decide_False; [done | by intros [_ ?]].
    + rewrite lookup_app_r by lia. rewrite Hfull_len.
      destruct (decide ((k * b < length indices)%nat /\ false = false)) as [[Hkb _]|Hkb].
      * assert (Hkq : k = q) by nia. by rewrite Hkq, Nat.sub_diag.
      * assert (q < k)%nat.
        { destruct (decide (k = q)) as [Heq|Hne]; [|lia].
          exfalso. apply Hkb. split; [rewrite Heq; lia | done]. }
        apply lookup_ge_None_2. simpl. lia.
    + rewrite lookup_ge_None_2 by lia. rewrite decide_False; [done | by intros [_ ?]].
    + rewrite lookup_ge_None_2 by lia. rewrite decide_False; [done|].
      intros [Hkb _]. nia.
Qed.
End Batches.

(** [range(n)] is [0, 1, ..., n - 1]. *)
Lemma range_from_zero (n : nat) :
  range 0 (Z.of_nat n) 1 = Ok (Z.of_nat <$> seq 0 n).
Proof.
  unfold range. destruct (Z.eqb_spec 1 0); [lia|].
  f_equal. apply list_eq. intros k.
  rewrite range_iter_lookup, list_lookup_fmap by lia.
  destruct (Z.ltb_spec (0 + Z.of_nat k * 1) (Z.of_nat n)).
  - rewrite lookup_seq_lt by lia. simpl. f_equal. lia.
  - by rewrite lookup_seq_ge by lia.
Qed.

Lemma getitem_pick token_ids max_length stride self idx :
  windows token_ids max_length stride = Ok self ->
  0 <= idx < __len__ self ->
  __getitem__ self idx = Ok (pick self idx).
Proof.
  intros Hw Hidx. destruct (windows_Ok_inv _ _ _ _ Hw) as (r & _ & ->).
  unfold __len__, __getitem__, pick, samples, len in *. cbn [input_ids target_ids] in *.
  rewrite length_fmap in Hidx.
  destruct (lookup_lt_is_Some_2 r (Z.to_nat idx)) as [i Hi]; [lia|].
  rewrite zip_windows, list_lookup_fmap, Hi. simpl.
  rewrite (index_inside _ _ (input_window token_ids max_length i))
    by (lia || by rewrite list_lookup_fmap, Hi).
  rewrite (index_inside _ _ (target_window token_ids max_length i))
    by (lia || by rewrite list_lookup_fmap, Hi).
  done.
Qed.

Lemma fetch_pick token_ids max_length stride self (batch : list Z) :
  windows token_ids max_length stride = Ok self ->
  (forall idx, idx ∈ batch -> 0 <= idx < __len__ self) ->
  fetch self batch = Ok (pick self <$> batch).
Proof.
  intros Hw. induction batch as [|idx batch IH]; intros Hvalid; [done|].
  cbn [fetch]. rewrite (getitem_pick _ _ _ _ _ Hw) by (apply Hvalid; left).
  rewrite IH; [done|]. intros idx' Hidx'. apply Hvalid. by right.
Qed.

Lemma pick_all (self : GPTDatasetV1) :
  pick self <$> (Z.of_nat <$> seq 0 (length (samples self))) = samples self.
Proof.
  apply list_eq. intros k. rewrite !list_lookup_fmap.
  destruct (samples self !! k) as [s|] eqn:Hs.
  - rewrite lookup_seq_lt by (by eapply lookup_lt_Some).
    change (Some (pick self (Z.of_nat k)) = Some s).
    unfold pick. by rewrite Nat2Z.id, Hs.
  - rewrite lookup_seq_ge; [done|]. by apply lookup_ge_None.
Qed.

Lemma stack_uniform (rows : list tensor) (m : Z) :
  rows <> [] -> (forall row, row ∈ rows -> len row = m) ->
  stack rows = Returns rows.
Proof.
  intros Hne Hm. destruct rows as [|row rest]; [done|].
  unfold stack. rewrite (proj2 (forallb_forall _ rest)); [done|].
  intros row' Hin. apply Z.eqb_eq.
  rewrite (Hm row) by left. apply Hm. right. by apply list_elem_of_In.
Qed.

Lemma collate_uniform (data : list Sample) (m : Z) :
  data <> [] ->
  (forall s, s ∈ data -> len s.1 = m /\ len s.2 = m) ->
  collate data = Returns (data.*1, data.*2).
Proof.
  intros Hne Hm. unfold collate.
  rewrite (stack_uniform (data.*1) m), (stack_uniform (data.*2) m); [done|..].
  - by destruct data.
  - intros row Hrow. apply list_elem_of_fmap in Hrow as (s & -> & Hs). by apply Hm.
  - by destruct data.
  - intros row Hrow. apply list_elem_of_fmap in Hrow as (s & -> & Hs). by apply Hm.
Qed.

(** For a positive stride and a window length that is not negative, all
    windows have [max_length] elements. *)
Lemma samples_uniform token_ids max_length stride self :
  0 <= max_length -> 1 <= stride ->
  windows token_ids max_length stride = Ok self ->
  forall s, s ∈ samples self -> len s.1 = max_length /\ len s.2 = max_length.
Proof.
  intros Hm Hs Hw s Hin. destruct (windows_Ok_inv _ _ _ _ Hw) as (r & Hr & ->).
  unfold samples in Hin. cbn [input_ids target_ids] in Hin.
  rewrite zip_windows in Hin.
  apply list_elem_of_fmap in Hin as (i & -> & Hi).
  apply list_elem_of_lookup in Hi as [k Hk].
  destruct (starts_pos_lookup _ _ _ _ _ _ Hs Hr Hk) as [_ Hb].
  unfold sample_at, input_window, target_window. cbn [fst snd].
  replace (i + max_length + 1) with (i + 1 + max_length) by lia.
  split; apply slice_inside_length; lia.
Qed.

Lemma create_dataloader_v1_Ok_inv tokenizer txt batch_size max_length stride
    shuffle drop_last num_workers dl :
  create_dataloader_v1 tokenizer txt batch_size max_length stride
    shuffle drop_last num_workers = Ok dl ->
  exists token_ids self,
    encode tokenizer txt = Ok token_ids
    /\ windows token_ids max_length stride = Ok self
    /\ dl = {| dataset := self; batch_size := batch_size; shuffle := shuffle;
               drop_last := drop_last; num_workers := num_workers |}
    /\ 1 <= batch_size /\ 0 <= num_workers
    /\ (shuffle = true -> 1 <= __len__ self).
Proof.
  unfold create_dataloader_v1, __init__.
  destruct (encode tokenizer txt) as [token_ids|e]; [|done].
  destruct (windows token_ids max_length stride) as [self|e] eqn:Hw; [|done].
  unfold DataLoader_init.
  destruct (Z.ltb_spec num_workers 0); [done|].
  assert (Hlen : (shuffle && (__len__ self <=? 0)) = false ->
                 shuffle = true -> 1 <= __len__ self).
  { intros Hf ->. simpl in Hf. apply Z.leb_gt in Hf. lia. }
  destruct (shuffle && (__len__ self <=? 0)); [done|].
  destruct (Z.leb_spec batch_size 0); [done|].
  intros [= <-]. exists token_ids, self.
  split; [done|]. split; [done|]. split; [done|].
  split; [lia|]. split; [lia|]. by apply Hlen.
Qed.

Lemma elem_of_take_drop {A} (x : A) (n m : nat) (l : list A) :
  x ∈ take n (drop m l) -> x ∈ l.
Proof.
  intros Hx. apply elem_of_take in Hx as (i & Hi & _).
  rewrite lookup_drop in Hi. apply list_elem_of_lookup. eauto.
Qed.

Lemma elem_of_drop {A} (x : A) (m : nat) (l : list A) :
  x ∈ drop m l -> x ∈ l.
Proof.
  intros Hx. apply (elem_of_take_drop x (length (drop m l)) m).
  by rewrite take_ge.
Qed.

Lemma samples_length token_ids max_length stride self :
  windows token_ids max_length stride = Ok self ->
  len (samples self) = __len__ self.
Proof.
  intros Hw. destruct (windows_Ok_inv _ _ _ _ Hw) as (r & _ & ->).
  unfold samples, __len__, len. cbn [input_ids target_ids].
  by rewrite zip_windows, !length_fmap.
Qed.

Lemma pick_elem_of token_ids max_length stride self idx :
  windows token_ids max_length stride = Ok self ->
  0 <= idx < __len__ self ->
  pick self idx ∈ samples self.
Proof.
  intros Hw Hidx. rewrite <- (samples_length _ _ _ _ Hw) in Hidx.
  destruct (lookup_inside (samples self) idx Hidx) as [s Hs].
  unfold pick. rewrite Hs. apply list_elem_of_lookup. eauto.
Qed.

(** What [next] returns for a batch of valid indices: the inputs and the
    targets of the samples at these indices, in the order of the batch. *)
Lemma next_batch_of_indices token_ids max_length stride self
    bs shuf dlast nw randperm order (k : nat) batch :
  0 <= max_length -> 1 <= stride ->
  windows token_ids max_length stride = Ok self ->
  sampler {| dataset := self; batch_size := bs; shuffle := shuf;
             drop_last := dlast; num_workers := nw |} randperm = Ok order ->
  batch_sampler bs dlast order !! k = Some batch ->
  batch <> [] ->
  (forall idx, idx ∈ batch -> 0 <= idx < __len__ self) ->
  next_batch {| dataset := self; batch_size := bs; shuffle := shuf;
                drop_last := dlast; num_workers := nw |} randperm k
  = Returns ((pick self <$> batch).*1, (pick self <$> batch).*2).
Proof.
  intros Hm Hs Hw Horder Hbatch Hne Hvalid.
  unfold next_batch. rewrite Horder. cbn [dataset batch_size drop_last].
  rewrite Hbatch, (fetch_pick _ _ _ _ _ Hw) by done.
  apply (collate_uniform _ max_length).
  - by destruct batch.
  - intros s Hin. apply list_elem_of_fmap in Hin as (idx & -> & Hidx).
    apply (samples_uniform _ _ _ _ Hm Hs Hw).
    apply (pick_elem_of _ _ _ _ _ Hw). by apply Hvalid.
Qed.

(** The batches of a loader without shuffling, for [max_length >= 0] and
    [stride >= 1]: batch [k] holds the samples [k * b, ..., k * b + b - 1]
    while that many exist; the remaining samples form a last, shorter batch
    unless [drop_last] is set; after that [next] raises [StopIteration]. *)
Lemma next_batch_sequential tokenizer txt bs max_length stride dlast nw dl
    randperm (k : nat) :
  0 <= max_length -> 1 <= stride ->
  create_dataloader_v1 tokenizer txt bs max_length stride false dlast nw = Ok dl ->
  next_batch dl randperm k
  = if decide ((k + 1) * Z.to_nat bs <= length (samples (dataset dl)))%nat
    then Returns ((take (Z.to_nat bs) (drop (k * Z.to_nat bs) (samples (dataset dl)))).*1,
                  (take (Z.to_nat bs) (drop (k * Z.to_nat bs) (samples (dataset dl)))).*2)
    else if decide ((k * Z.to_nat bs < length (samples (dataset dl)))%nat
                    /\ dlast = false)
         then Returns ((drop (k * Z.to_nat bs) (samples (dataset dl))).*1,
                       (drop (k * Z.to_nat bs) (samples (dataset dl))).*2)
         else Throws StopIteration.
Proof.
  intros Hm Hs Hdl.
  destruct (create_dataloader_v1_Ok_inv _ _ _ _ _ _ _ _ _ Hdl)
    as (token_ids & self & _ & Hw & -> & Hbs & _ & _).
  cbn [dataset].
  pose proof (samples_length _ _ _ _ Hw) as Hlen.
  set (n := length (samples self)) in *.
  set (b := Z.to_nat bs).
  set (order := Z.of_nat <$> seq 0 n).
  assert (Horder : sampler {| dataset := self; batch_size := bs; shuffle := false;
                              drop_last := dlast; num_workers := nw |} randperm
                   = Ok order).
  { unfold sampler. cbn [shuffle dataset]. rewrite <- Hlen. apply range_from_zero. }
  assert (Hvalid : forall idx, idx ∈ order -> 0 <= idx < __len__ self).
  { intros idx Hidx. apply list_elem_of_fmap in Hidx as (i & -> & Hi).
    apply elem_of_seq in Hi. unfold len in Hlen. lia. }
  assert (Hall : pick self <$> order = samples self) by apply pick_all.
  assert (Horder_len : length order = n)
    by (unfold order; by rewrite length_fmap, length_seq).
  pose proof (batch_sampler_lookup b ltac:(unfold b; lia) dlast order k) as Hlook.
  replace (Z.of_nat b) with bs in Hlook by (unfold b; lia).
  rewrite Horder_len in Hlook.
  destruct (decide ((k + 1) * b <= n)%nat) as [Hfull|Hfull].
  - rewrite (next_batch_of_indices _ _ _ _ _ _ _ _ _ _ _ _ Hm Hs Hw Horder Hlook).
    + by rewrite fmap_take, fmap_drop, Hall.
    + intros Hnil. apply (f_equal length) in Hnil.
      rewrite length_take, length_drop in Hnil. simpl in Hnil. unfold b in *. lia.
    + intros idx Hidx. apply Hvalid. by eapply elem_of_take_drop.
  - destruct (decide ((k * b < n)%nat /\ dlast = false)) as [[Hpart _]|Hnone].
    + rewrite (next_batch_of_indices _ _ _ _ _ _ _ _ _ _ _ _ Hm Hs Hw Horder Hlook).
      * by rewrite fmap_drop, Hall.
      * intros Hnil. apply (f_equal length) in Hnil.
        rewrite length_drop in Hnil. simpl in Hnil. lia.
      * intros idx Hidx. apply Hvalid. by eapply elem_of_drop.
    + unfold next_batch. rewrite Horder. cbn [batch_size drop_last]. by rewrite Hlook.
Qed.

Lemma create_dataloader_v1_build tokenizer txt bs max_length stride shuf dlast nw dl :
  create_dataloader_v1 tokenizer txt bs max_length stride shuf dlast nw = Ok dl ->
  exists token_ids,
    encode tokenizer txt = Ok token_ids
    /\ build token_ids max_length stride = Ok (samples (dataset dl))
    /\ len (samples (dataset dl)) = __len__ (dataset dl)
    /\ 1 <= bs.
Proof.
  intros Hdl.
  destruct (create_dataloader_v1_Ok_inv _ _ _ _ _ _ _ _ _ Hdl)
    as (token_ids & self & Henc & Hw & -> & Hbs & _ & _).
  exists token_ids. cbn [dataset]. split; [done|]. split.
  - unfold build. by rewrite Hw.
  - split; [by eapply samples_length | done].
Qed.

(** A loader made without shuffling, for [max_length >= 1] and
    [stride >= 1]: as long as [(k + 1) * batch_size] samples exist, the
    [k]-th [next] returns two tensors of shape [(batch_size, max_length)];
    row [j] of the first is the input window and row [j] of the second the
    target window of sample [k * batch_size + j] of the dataset. *)
Theorem sequential_full_batch (tokenizer : Tokenizer) (txt : string)
    (bs max_length stride : Z) (dlast : bool) (nw : Z) (dl : DataLoader)
    (randperm : list Z) (k : nat) :
  1 <= max_length -> 1 <= stride ->
  create_dataloader_v1 tokenizer txt bs max_length stride false dlast nw = Ok dl ->
  (Z.of_nat k + 1) * bs <= __len__ (dataset dl) ->
  exists (token_ids : list Z) (ss : list Sample) (xs ys : list tensor),
    encode tokenizer txt = Ok token_ids
    /\ build token_ids max_length stride = Ok ss
    /\ next_batch dl randperm k = Returns (xs, ys)
    /\ len xs = bs /\ len ys = bs
    /\ forall j : nat, Z.of_nat j < bs ->
         exists input target : tensor,
           ss !! (k * Z.to_nat bs + j)%nat = Some (input, target)
           /\ xs !! j = Some input /\ ys !! j = Some target
           /\ len input = max_length /\ len target = max_length.
Proof.
  intros Hm Hs Hdl Hk.
  destruct (create_dataloader_v1_build _ _ _ _ _ _ _ _ _ Hdl)
    as (token_ids & Henc & Hb & Hlen & Hbs).
  destruct (create_dataloader_v1_Ok_inv _ _ _ _ _ _ _ _ _ Hdl)
    as (token_ids' & self & _ & Hw & Hrec & _ & _ & _).
  assert (Hm0 : 0 <= max_length) by lia.
  pose proof (next_batch_sequential _ _ _ _ _ _ _ _ randperm k Hm0 Hs Hdl) as Hnext.
  set (ss := samples (dataset dl)) in *.
  set (b := Z.to_nat bs) in *.
  assert (Hfull : ((k + 1) * b <= length ss)%nat) by (unfold len, b in *; nia).
  rewrite decide_True in Hnext by done.
  exists token_ids, ss, (take b (drop (k * b) ss)).*1, (take b (drop (k * b) ss)).*2.
  split; [done|]. split; [done|]. split; [done|].
  assert (Hbb : Z.of_nat b = bs) by (unfold b; lia).
  assert (Hchunk : forall A (f : Sample -> A),
            len (f <$> take b (drop (k * b) ss)) = bs).
  { intros A f. unfold len. rewrite length_fmap, length_take, length_drop.
    clearbody b ss. lia. }
  split; [apply Hchunk|]. split; [apply Hchunk|].
  intros j Hj.
  assert (Hjb : (j < b)%nat) by (unfold b; lia).
  destruct (lookup_lt_is_Some_2 ss (k * b + j)) as [[input target] Hlook]; [lia|].
  exists input, target. split; [done|].
  assert (Hin : (input, target) ∈ ss) by (apply list_elem_of_lookup; eauto).
  unfold Sample in Hlook.
  rewrite !list_lookup_fmap, lookup_take_lt, lookup_drop, Hlook by done.
  split; [done|]. split; [done|].
  subst dl. cbn [dataset] in *.
  apply (samples_uniform _ _ _ _ Hm0 Hs Hw _ Hin).
Qed.

Lemma sequential_full_batch_witness :
  1 <= 4 /\ 1 <= 4
  /\ exists dl : DataLoader,
       create_dataloader_v1 (constant_tokenizer verdict_tokens_33) EmptyString
         8 4 4 false true 0 = Ok dl
       /\ (Z.of_nat 0 + 1) * 8 <= __len__ (dataset dl)
       /\ exists (xs ys : list tensor),
            next_batch dl [] 0 = Returns (xs, ys) /\ len xs = 8 /\ len ys = 8.
Proof.
  split; [lia|]. split; [lia|].
  eexists. split; [reflexivity|].
  assert (Hn : (Z.of_nat 0 + 1) * 8
               <= __len__ (dataset
                    {| dataset :=
                         {| input_ids := input_window verdict_tokens_33 4
                                           <$> [0; 4; 8; 12; 16; 20; 24; 28];
                            target_ids := target_window verdict_tokens_33 4
                                           <$> [0; 4; 8; 12; 16; 20; 24; 28] |};
                       batch_size := 8; shuffle := false; drop_last := true;
                       num_workers := 0 |}))
    by (unfold __len__, len; simpl; lia).
  split; [exact Hn|].
  destruct (sequential_full_batch (constant_tokenizer verdict_tokens_33) EmptyString
              8 4 4 true 0 _ [] 0 ltac:(lia) ltac:(lia) eq_refl Hn)
    as (t & ss & xs & ys & _ & _ & Hnext & Hx & Hy & _).
  exists xs, ys. auto.
Defined.

(** The end of a pass over a loader made without shuffling
    ([max_length >= 1], [stride >= 1], [n] samples).  With [drop_last] a
    batch that cannot be filled is never returned: [next] raises
    [StopIteration] as soon as fewer than [(k + 1) * batch_size] samples
    exist, so a dataset with fewer samples than [batch_size] yields no batch
    at all.  Without [drop_last] the samples left over are returned as a
    last batch of [n - k * batch_size] rows, and [StopIteration] follows. *)
Theorem sequential_last_batch (tokenizer : Tokenizer) (txt : string)
    (bs max_length stride : Z) (dlast : bool) (nw : Z) (dl : DataLoader)
    (randperm : list Z) (k : nat) :
  1 <= max_length -> 1 <= stride ->
  create_dataloader_v1 tokenizer txt bs max_length stride false dlast nw = Ok dl ->
  (dlast = true -> __len__ (dataset dl) < (Z.of_nat k + 1) * bs ->
     next_batch dl randperm k = Throws StopIteration)
  /\ (dlast = false -> __len__ (dataset dl) <= Z.of_nat k * bs ->
     next_batch dl randperm k = Throws StopIteration)
  /\ (dlast = false ->
      Z.of_nat k * bs < __len__ (dataset dl) < (Z.of_nat k + 1) * bs ->
      exists xs ys : list tensor,
        next_batch dl randperm k = Returns (xs, ys)
        /\ len xs = __len__ (dataset dl) - Z.of_nat k * bs
        /\ len ys = __len__ (dataset dl) - Z.of_nat k * bs
        /\ zip xs ys = drop (k * Z.to_nat bs) (samples (dataset dl))).
Proof.
  intros Hm Hs Hdl.
  assert (Hm0 : 0 <= max_length) by lia.
  destruct (create_dataloader_v1_build _ _ _ _ _ _ _ _ _ Hdl)
    as (token_ids & _ & _ & Hlen & Hbs).
  pose proof (next_batch_sequential _ _ _ _ _ _ _ _ randperm k Hm0 Hs Hdl) as Hnext.
  rewrite <- Hlen. unfold len.
  set (ss := samples (dataset dl)) in *.
  set (b := Z.to_nat bs) in *.
  assert (Hbb : Z.of_nat b = bs) by (unfold b; lia).
  clearbody b ss. subst bs.
  split; [|split].
  - intros -> Hk. rewrite decide_False in Hnext by nia.
    rewrite decide_False in Hnext; [done | by intros [_ ?]].
  - intros -> Hk. rewrite decide_False in Hnext by nia.
    rewrite decide_False in Hnext; [done | intros [? _]; nia].
  - intros -> Hk. rewrite decide_False in Hnext by nia.
    rewrite decide_True in Hnext by (split; [nia | done]).
    exists (drop (k * b) ss).*1, (drop (k * b) ss).*2.
    assert (Hkb : (k * b <= length ss)%nat) by nia.
    split; [done|].
    rewrite !length_fmap, !length_drop, Nat2Z.inj_sub, Nat2Z.inj_mul by done.
    split; [done|]. split; [done|].
    apply zip_fst_snd.
Qed.

Lemma sequential_last_batch_witness :
  1 <= 4 /\ 1 <= 4
  /\ exists dl : DataLoader,
       create_dataloader_v1 (constant_tokenizer verdict_tokens) EmptyString
         8 4 4 false true 0 = Ok dl
       /\ __len__ (dataset dl) < (Z.of_nat 0 + 1) * 8
       /\ next_batch dl [] 0 = Throws StopIteration.
Proof.
  split; [lia|]. split; [lia|].
  eexists. split; [reflexivity|].
  assert (Hn : __len__ (dataset
                  {| dataset :=
                       {| input_ids := input_window verdict_tokens 4 <$> [0; 4];
                          target_ids := target_window verdict_tokens 4 <$> [0; 4] |};
                     batch_size := 8; shuffle := false; drop_last := true;
                     num_workers := 0 |})
               < (Z.of_nat 0 + 1) * 8)
    by (unfold __len__, len; simpl; lia).
  split; [exact Hn|].
  exact (proj1 (sequential_last_batch (constant_tokenizer verdict_tokens) EmptyString
                  8 4 4 true 0 _ [] 0 ltac:(lia) ltac:(lia) eq_refl) eq_refl Hn).
Defined.

(** When the tokenizer succeeds with token ids that fit the tensors'
    64-bit elements and the stride is positive, [create_dataloader_v1]
    raises exactly in three cases, each time a [ValueError]: [num_workers < 0], [batch_size <= 0], or [shuffle] set on a
    text of at most [max_length] tokens (an empty dataset).  In particular
    the call with all defaults fails on a text of at most 256 tokens. *)
Theorem create_dataloader_v1_raises (tokenizer : Tokenizer) (txt : string)
    (token_ids : list Z) (bs max_length stride : Z) (shuf dlast : bool) (nw : Z) :
  encode tokenizer txt = Ok token_ids ->
  forallb fits_int64 token_ids = true ->
  1 <= stride ->
  (create_dataloader_v1 tokenizer txt bs max_length stride shuf dlast nw
     = Raise ValueError
   <-> nw < 0 \/ bs <= 0 \/ (shuf = true /\ len token_ids <= max_length))
  /\ (is_raise (create_dataloader_v1 tokenizer txt bs max_length stride shuf dlast nw)
        = false
      \/ create_dataloader_v1 tokenizer txt bs max_length stride shuf dlast nw
         = Raise ValueError)
  /\ (len token_ids <= 256 ->
      create_dataloader_v1_defaults tokenizer txt = Raise ValueError).
Proof.
  intros Henc Hfit Hs.
  assert (Hgen : forall bs' ml' st' shuf' dlast' nw', 1 <= st' ->
    exists self, windows token_ids ml' st' = Ok self
      /\ (__len__ self <= 0 <-> len token_ids <= ml')
      /\ create_dataloader_v1 tokenizer txt bs' ml' st' shuf' dlast' nw'
         = DataLoader_init self bs' shuf' dlast' nw').
  { intros bs' ml' st' shuf' dlast' nw' Hs'.
    destruct (starts_pos_seq token_ids ml' st' Hs') as (n & Hr & Hn).
    eexists. split; [by apply windows_fit_starts|]. split.
    - unfold __len__, len. cbn [input_ids].
      rewrite !length_fmap, length_seq. specialize (Hn 0%nat).
      unfold len in Hn. lia.
    - unfold create_dataloader_v1, __init__.
      by rewrite Henc, (windows_fit_starts _ _ _ _ Hfit Hr). }
  assert (Hinit : forall self bs' shuf' dlast' nw',
    (DataLoader_init self bs' shuf' dlast' nw' = Raise ValueError
     <-> nw' < 0 \/ bs' <= 0 \/ (shuf' = true /\ __len__ self <= 0))
    /\ (is_raise (DataLoader_init self bs' shuf' dlast' nw') = false
        \/ DataLoader_init self bs' shuf' dlast' nw' = Raise ValueError)).
  { intros self bs' shuf' dlast' nw'. unfold DataLoader_init.
    destruct (Z.ltb_spec nw' 0) as [Hnw|Hnw].
    { split; [split; [auto | done] | by right]. }
    destruct (shuf' && (__len__ self <=? 0)) eqn:Hsh.
    { apply andb_true_iff in Hsh as [-> Hle]. apply Z.leb_le in Hle.
      split; [split; [auto | done] | by right]. }
    destruct (Z.leb_spec bs' 0) as [Hbs|Hbs].
    { split; [split; [auto | done] | by right]. }
    split; [|by left]. split; [done|].
    intros [?|[?|[-> Hle]]]; [lia | lia |].
    simpl in Hsh. apply Z.leb_gt in Hsh. lia. }
  destruct (Hgen bs max_length stride shuf dlast nw Hs) as (self & _ & Hempty & ->).
  destruct (Hinit self bs shuf dlast nw) as [Hiff Hor].
  split; [by rewrite Hiff, Hempty|]. split; [done|].
  intros Hshort. unfold create_dataloader_v1_defaults.
  destruct (Hgen 4 256 128 true true 0 ltac:(lia)) as (self' & _ & Hempty' & ->).
  apply (Hinit self' 4 true true 0). right. right. split; [done|]. by apply Hempty'.
Qed.

Lemma create_dataloader_v1_raises_witness :
  encode (constant_tokenizer verdict_tokens) EmptyString = Ok verdict_tokens
  /\ forallb fits_int64 verdict_tokens = true
  /\ 1 <= 128
  /\ create_dataloader_v1_defaults (constant_tokenizer verdict_tokens) EmptyString
     = Raise ValueError.
Proof.
  split; [reflexivity|]. split; [reflexivity|]. split; [lia|].
  apply (proj2 (proj2 (create_dataloader_v1_raises (constant_tokenizer verdict_tokens)
                         EmptyString verdict_tokens 4 256 128 true true 0
                         eq_refl eq_refl ltac:(lia)))).
  unfold len. simpl. lia.
Defined.

Lemma concat_collated {A B} (g : Z -> A * B) (bl : list (list Z)) :
  concat ((fun batch : list Z => ((g <$> batch).*1, (g <$> batch).*2)) <$> bl).*1
    = (g <$> concat bl).*1
  /\ concat ((fun batch : list Z => ((g <$> batch).*1, (g <$> batch).*2)) <$> bl).*2
    = (g <$> concat bl).*2.
Proof.
  induction bl as [|batch bl [IH1 IH2]]; [done|].
  csimpl. rewrite IH1, IH2, !fmap_app. done.
Qed.

(** Without [drop_last] the batches of indices, one after the other, are the
    indices the sampler presented. *)
Lemma batch_sampler_concat (b : nat) (indices : list Z) :
  (0 < b)%nat ->
  concat (batch_sampler (Z.of_nat b) false indices) = indices.
Proof.
  intros Hb. unfold batch_sampler.
  destruct (batch_sampler_loop_chunks b Hb indices []) as (q & Hq & Hrun);
    [simpl; lia|].
  rewrite Hrun. simpl app in *. clear Hrun.
  pose proof (concat_tiles indices b 0 q) as Htiles.
  change (drop 0 indices) with indices in Htiles.
  change (fun k : nat => take b (drop (0 + k * b) indices))
    with (fun k : nat => take b (drop (k * b) indices)) in Htiles.
  destruct (Z.ltb_spec 0 (len (drop (q * b) indices))) as [Hrem|Hrem]; simpl.
  - rewrite concat_app, Htiles. simpl. by rewrite app_nil_r, take_drop.
  - rewrite Htiles. apply take_ge.
    unfold len in Hrem. rewrite length_drop in Hrem. lia.
Qed.

Lemma batch_sampler_nonempty (b : nat) (dlast : bool) (indices : list Z)
    (k : nat) (batch : list Z) :
  (0 < b)%nat ->
  batch_sampler (Z.of_nat b) dlast indices !! k = Some batch ->
  batch <> [] /\ (length batch <= b)%nat /\ forall idx, idx ∈ batch -> idx ∈ indices.
Proof.
  intros Hb Hk. rewrite (batch_sampler_lookup b Hb) in Hk.
  destruct (decide ((k + 1) * b <= length indices)%nat) as [Hfull|Hfull].
  - injection Hk as <-. split; [|split].
    + intros Hnil. apply (f_equal length) in Hnil.
      rewrite length_take, length_drop in Hnil. simpl in Hnil. lia.
    + rewrite length_take. lia.
    + intros idx. apply elem_of_take_drop.
  - destruct (decide ((k * b < length indices)%nat /\ dlast = false))
      as [[Hpart _]|Hnone]; [|done].
    injection Hk as <-. split; [|split].
    + intros Hnil. apply (f_equal length) in Hnil.
      rewrite length_drop in Hnil. simpl in Hnil. lia.
    + rewrite length_drop. lia.
    + intros idx. apply elem_of_drop.
Qed.

(** A pass over a loader made with shuffling and without [drop_last]
    ([max_length >= 1], [stride >= 1]), when the generator draws a
    permutation of the indices: the batches returned until [StopIteration]
    hold every sample of the dataset exactly once, inputs and targets
    paired as in the dataset, and no batch is empty or has more than
    [batch_size] rows. *)
Theorem shuffled_pass_is_permutation (tokenizer : Tokenizer) (txt : string)
    (bs max_length stride nw : Z) (dl : DataLoader) (randperm : list Z) :
  1 <= max_length -> 1 <= stride ->
  create_dataloader_v1 tokenizer txt bs max_length stride true false nw = Ok dl ->
  randperm ≡ₚ Z.of_nat <$> seq 0 (length (samples (dataset dl))) ->
  exists batches : list (list tensor * list tensor),
    (forall k : nat,
       next_batch dl randperm k
       = match batches !! k with
         | Some batch => Returns batch
         | None => Throws StopIteration
         end)
    /\ zip (concat batches.*1) (concat batches.*2) ≡ₚ samples (dataset dl)
    /\ forall batch, batch ∈ batches ->
         1 <= len batch.1 <= bs /\ len batch.2 = len batch.1.
Proof.
  intros Hm Hs Hdl Hperm.
  assert (Hm0 : 0 <= max_length) by lia.
  destruct (create_dataloader_v1_Ok_inv _ _ _ _ _ _ _ _ _ Hdl)
    as (token_ids & self & _ & Hw & -> & Hbs & _ & _).
  cbn [dataset] in *.
  pose proof (samples_length _ _ _ _ Hw) as Hlen.
  set (b := Z.to_nat bs).
  assert (Hb : (0 < b)%nat) by (unfold b; lia).
  assert (Hbb : Z.of_nat b = bs) by (unfold b; lia).
  assert (Hvalid : forall idx, idx ∈ randperm -> 0 <= idx < __len__ self).
  { intros idx Hidx. rewrite Hperm in Hidx.
    apply list_elem_of_fmap in Hidx as (i & -> & Hi).
    apply elem_of_seq in Hi. unfold len in Hlen. lia. }
  set (collated := fun batch : list Z =>
                     ((pick self <$> batch).*1, (pick self <$> batch).*2)).
  exists (collated <$> batch_sampler bs false randperm).
  split; [|split].
  - intros k. rewrite list_lookup_fmap.
    destruct (batch_sampler bs false randperm !! k) as [batch|] eqn:Hk.
    + rewrite <- Hbb in Hk.
      destruct (batch_sampler_nonempty b false randperm k batch Hb Hk)
        as (Hne & _ & Hsub).
      rewrite Hbb in Hk.
      apply (next_batch_of_indices _ _ _ _ _ _ _ _ _ randperm _ _ Hm0 Hs Hw);
        [done | done | done | auto].
    + unfold next_batch, sampler. cbn [shuffle batch_size drop_last].
      by rewrite Hk.
  - assert (Hz : zip (concat (collated <$> batch_sampler bs false randperm).*1)
                     (concat (collated <$> batch_sampler bs false randperm).*2)
                 = pick self <$> randperm).
    { rewrite <- (batch_sampler_concat b randperm Hb) at 3. rewrite Hbb.
      etrans; [|apply zip_fst_snd].
      f_equal; apply (concat_collated (pick self)). }
    refine (eq_rect_r (fun l => l ≡ₚ samples self) _ Hz).
    rewrite Hperm. by rewrite pick_all.
  - intros batch Hin. apply list_elem_of_fmap in Hin as (idxs & -> & Hin).
    apply list_elem_of_lookup in Hin as [k Hk]. rewrite <- Hbb in Hk.
    destruct (batch_sampler_nonempty b false randperm k idxs Hb Hk)
      as (Hne & Hle & _).
    unfold collated, len. cbn [fst snd]. rewrite !length_fmap.
    destruct idxs; [done|]. simpl in *. lia.
Qed.

Lemma shuffled_pass_is_permutation_witness :
  1 <= 4 /\ 1 <= 4
  /\ exists dl : DataLoader,
       create_dataloader_v1 (constant_tokenizer verdict_tokens) EmptyString
         1 4 4 true false 0 = Ok dl
       /\ [1; 0] ≡ₚ Z.of_nat <$> seq 0 (length (samples (dataset dl)))
       /\ exists batches : list (list tensor * list tensor),
            zip (concat batches.*1) (concat batches.*2) ≡ₚ samples (dataset dl).
Proof.
  split; [lia|]. split; [lia|].
  eexists. split; [reflexivity|].
  assert (Hp : [1; 0] ≡ₚ Z.of_nat <$> seq 0 (length (samples (dataset
                  {| dataset :=
                       {| input_ids := input_window verdict_tokens 4 <$> [0; 4];
                          target_ids := target_window verdict_tokens 4 <$> [0; 4] |};
                     batch_size := 1; shuffle := true; drop_last := false;
                     num_workers := 0 |}))))
    by apply Permutation_swap.
  split; [exact Hp|].
  destruct (shuffled_pass_is_permutation (constant_tokenizer verdict_tokens) EmptyString
              1 4 4 0 _ [1; 0] ltac:(lia) ltac:(lia) eq_refl Hp)
    as (batches & _ & Hz & _).
  exists batches. exact Hz.
Defined.

(** ** The printed batches and lines of the two scripts *)

(** dataset_v1.py, lines 94-119: the first batch for [batch_size = 8],
    [max_length = 4], [stride = 4], and the end of the pass on the 33 tokens
    the comments show. *)
Example dataloader4_first_batch :
  result_map (fun dl => (next_batch dl [] 0, next_batch dl [] 1))
    (create_dataloader_v1 (constant_tokenizer verdict_tokens_33) EmptyString
       8 4 4 false true 0)
  = Ok (Returns
          ([[40; 367; 2885; 1464]; [1807; 3619; 402; 271];
            [10899; 2138; 257; 7026]; [15632; 438; 2016; 257];
            [922; 5891; 1576; 438]; [568; 340; 373; 645];
            [1049; 5975; 284; 502]; [284; 3285; 326; 11]],
           [[367; 2885; 1464; 1807]; [3619; 402; 271; 10899];
            [2138; 257; 7026; 15632]; [438; 2016; 257; 922];
            [5891; 1576; 438; 568]; [340; 373; 645; 1049];
            [5975; 284; 502; 284]; [3285; 326; 11; 287]]),
        Throws StopIteration).
Proof. reflexivity. Qed.

(** dataset_v1.py, lines 56-67: [batch_size = 1], [max_length = 4],
    [stride = 1]. *)
Example dataloader_first_second_batch :
  result_map (fun dl => (next_batch dl [] 0, next_batch dl [] 1))
    (create_dataloader_v1 (constant_tokenizer verdict_tokens) EmptyString
       1 4 1 false true 0)
  = Ok (Returns ([[40; 367; 2885; 1464]], [[367; 2885; 1464; 1807]]),
        Returns ([[367; 2885; 1464; 1807]], [[2885; 1464; 1807; 3619]])).
Proof. reflexivity. Qed.

(** intro.py, lines 36-41: the four lines for a text whose tokens from
    position 50 on are 290, 4920, 2241, 287, 257. *)
Example intro_contexts_output :
  intro_contexts (repeat 0 50 ++ [290; 4920; 2241; 287; 257])
  = ([([290], 4920); ([290; 4920], 2241); ([290; 4920; 2241], 287);
      ([290; 4920; 2241; 287], 257)], None).
Proof. reflexivity. Qed.

(** One token fewer, and the fourth line is replaced by the exception. *)
Example intro_contexts_one_short :
  intro_contexts (repeat 0 50 ++ [290; 4920; 2241; 287])
  = ([([290], 4920); ([290; 4920], 2241); ([290; 4920; 2241], 287)],
     Some IndexError).
Proof. reflexivity. Qed.
